(** * On-device training notebook (mnist.ipynb): orchestration shell

    A shallow embedding of the code cells of
    [on_device_training/desktop/python/mnist.ipynb] that drive the training
    runtime: the helper [get_pred], the loops [train] and [test], the epoch
    driver and the inference cells.

    The notebook is glue code.  Every call it makes into a collaborator
    (the training module, the optimizer, the metric aggregator, the
    inference session, printing and plotting) is recorded, with its outcome,
    in a trace; the collaborators themselves are capability interfaces
    ([TrainingRuntime], [MetricLibrary]) the notebook is parametric in.
    Numbers produced by the runtime are kept abstract ([Scalar]): no
    property below depends on how floating-point arithmetic rounds. *)

From Stdlib Require Import String ZArith Bool Arith Lia List.
From Stdlib Require DecimalString DecimalNat.
Import ListNotations.

Set Implicit Arguments.

(** ** Numbers *)

(** The element type of the arrays the runtime produces (losses, logits,
    pixel values) with the four operations the notebook uses on it:
    conversion of a Python int, [+], [/] and the comparison [<=] that
    [np.argmax] scans with. *)
Class Scalar : Type := {
  scalar : Type;
  sc_of_int : Z -> scalar;
  sc_add : scalar -> scalar -> scalar;
  sc_div : scalar -> scalar -> scalar;
  sc_leb : scalar -> scalar -> bool
}.

(** [npy_isnan]: a NaN is the one value that is not [<=] itself. *)
Definition sc_isnan `{Scalar} (x : scalar) : bool := negb (sc_leb x x).

(** What IEEE 754 gives of [<=], NaN included: it is transitive, it
    relates any two numbers one way or the other, and it relates a NaN to
    nothing. *)
Definition leb_trans `{Scalar} : Prop :=
  forall x y z : scalar,
    sc_leb x y = true -> sc_leb y z = true -> sc_leb x z = true.

Definition leb_total_numbers `{Scalar} : Prop :=
  forall x y : scalar,
    sc_isnan x = false -> sc_isnan y = false ->
    sc_leb x y = true \/ sc_leb y x = true.

Definition nan_unordered `{Scalar} : Prop :=
  forall x y : scalar,
    sc_leb x y = true -> sc_isnan x = false /\ sc_isnan y = false.

(** The order [np.max] and [np.argmax] take the maximum in: a NaN is
    above everything, numbers are as [<=] has them. *)
Definition max_leb `{Scalar} (x y : scalar) : bool := sc_isnan y || sc_leb x y.

(** Integer scalars, used to run the model on concrete inputs. *)
Definition ZScalar : Scalar :=
  {| scalar := Z; sc_of_int := fun z => z; sc_add := Z.add;
     sc_div := Z.div; sc_leb := Z.leb |}.

(** Integers with a NaN ([None]), which propagates through the arithmetic
    and compares false with everything: enough of a float to run
    [get_pred] on arrays that hold one. *)
Definition nan_lift2 (f : Z -> Z -> Z) (x y : option Z) : option Z :=
  match x, y with
  | Some a, Some b => Some (f a b)
  | _, _ => None
  end.

Definition nan_leb (x y : option Z) : bool :=
  match x, y with
  | Some a, Some b => (a <=? b)%Z
  | _, _ => false
  end.

Definition NanScalar : Scalar :=
  {| scalar := option Z; sc_of_int := fun z => Some z; sc_add := nan_lift2 Z.add;
     sc_div := nan_lift2 Z.div; sc_leb := nan_leb |}.

(** ** Exceptions *)

(** The error kinds of the runtime collaborator. *)
Inductive rt_error : Type :=
| ArtifactLoadError
| ShapeMismatchError
| ExecutionError
| LookupError.

(** The Python exceptions the cells can end with. *)
Inductive exn : Type :=
| ZeroDivisionError
| TypeError
| IndexError
| KeyError (key : string)
| StopIteration
| ValueError
| AxisError
| TorchRuntimeError
| RuntimeFailure (e : rt_error)
| MetricFailure (msg : string).

Inductive result (A : Type) : Type :=
| Ok (a : A)
| Raise (e : exn).

Arguments Ok {A} a.
Arguments Raise {A} e.

(** ** Arrays *)

(** A torch tensor or a numpy array: a shape and the row-major buffer. *)
Record ndarray (A : Type) : Type := NdArray {
  shape : list nat;
  data : list A
}.

Definition numel (dims : list nat) : nat := fold_right Nat.mul 1 dims.

Definition wf_array {A} (a : ndarray A) : Prop :=
  length (data a) = numel (shape a).

(** [len(t)]: the first dimension; a 0-d tensor has no length. *)
Definition tensor_len {A} (t : ndarray A) : result nat :=
  match shape t with
  | [] => Raise TypeError
  | n :: _ => Ok n
  end.

(** [t.reshape(dims)]: same buffer, new shape, when the sizes agree. *)
Definition reshape {A} (t : ndarray A) (dims : list nat) : result (ndarray A) :=
  if numel dims =? length (data t)
  then Ok {| shape := dims; data := data t |}
  else Raise TorchRuntimeError.

(** [t.numpy()]: the same array. *)
Definition numpy {A} (t : ndarray A) : ndarray A := t.

(** [astype(np.int32)]: each label wrapped to 32 bits, two's complement. *)
Definition wrap_int32 (z : Z) : Z :=
  ((z + 2 ^ 31) mod 2 ^ 32 - 2 ^ 31)%Z.

Definition astype_int32 (a : ndarray Z) : ndarray Z :=
  {| shape := shape a; data := map wrap_int32 (data a) |}.

(** [t[0]]: the first slice along the first axis. *)
Definition getitem0 {A} (t : ndarray A) : result (ndarray A) :=
  match shape t with
  | [] => Raise IndexError
  | n :: rest =>
      if n =? 0 then Raise IndexError
      else Ok {| shape := rest; data := firstn (numel rest) (data t) |}
  end.

(** [l[0]] on a Python list. *)
Definition list_getitem0 {A} (l : list A) : result A :=
  match l with
  | [] => Raise IndexError
  | x :: _ => Ok x
  end.

Section Argmax.
Context `{SC : Scalar}.

(** The scan [np.argmax] runs along one lane: keep the first element,
    move to a later one only when it is not [<=] the best so far, and stop
    at the first NaN, which is maximal. *)
Fixpoint argmax_from (best_i : nat) (best : scalar) (i : nat)
         (l : list scalar) : nat :=
  match l with
  | [] => best_i
  | x :: l' =>
      if sc_leb x best then argmax_from best_i best (S i) l'
      else if sc_isnan x then i
      else argmax_from i x (S i) l'
  end.

Definition argmax_list (l : list scalar) : nat :=
  match l with
  | [] => 0
  | x :: l' => if sc_isnan x then 0 else argmax_from 0 x 1 l'
  end.

(** Element [(i, j, k)] of an array of shape [d0 :: d1 :: rest], [k]
    ranging over the flattened trailing axes. *)
Definition lane (a : ndarray scalar) (d1 inner i k : nat) : list scalar :=
  map (fun j => nth ((i * d1 + j) * inner + k) (data a) (sc_of_int 0))
      (seq 0 d1).

(** Modelled from the spec: numpy is not part of the repository;
    [np.argmax(a, axis=1)] returns, along axis 1, the index of the first
    occurrence of the maximum (of the first NaN, if there is one), raises
    [AxisError] when the array has fewer than two axes and [ValueError]
    when axis 1 is empty. *)
Definition np_argmax_axis1 (a : ndarray scalar) : result (ndarray Z) :=
  match shape a with
  | d0 :: d1 :: rest =>
      if d1 =? 0 then Raise ValueError
      else
        let inner := numel rest in
        Ok {| shape := d0 :: rest;
              data := flat_map
                        (fun i => map (fun k => Z.of_nat (argmax_list (lane a d1 inner i k)))
                                      (seq 0 inner))
                        (seq 0 d0) |}
  | _ => Raise AxisError
  end.

(** [def get_pred(logits): return np.argmax(logits, axis=1)] *)
Definition get_pred (logits : ndarray scalar) : result (ndarray Z) :=
  np_argmax_axis1 logits.

(** Entry [(i, j)] of a 2-D array with [c] columns. *)
Definition elt2 (a : ndarray scalar) (c i j : nat) : scalar :=
  nth (i * c + j) (data a) (sc_of_int 0).

End Argmax.

(** ** Python values of the loss arithmetic *)

(** [sum(losses) / len(losses)] mixes Python ints ([0], [len]) with the
    numbers the runtime returned. *)
Inductive pyval `{Scalar} : Type :=
| PyInt (z : Z)
| PyNum (x : scalar).

Section PyArith.
Context `{SC : Scalar}.

Definition py_add (a b : pyval) : pyval :=
  match a, b with
  | PyInt x, PyInt y => PyInt (x + y)
  | PyInt x, PyNum y => PyNum (sc_add (sc_of_int x) y)
  | PyNum x, PyInt y => PyNum (sc_add x (sc_of_int y))
  | PyNum x, PyNum y => PyNum (sc_add x y)
  end.

(** [sum(l)]: starts from the int [0] and adds from the left. *)
Definition py_sum (l : list scalar) : pyval :=
  fold_left py_add (map PyNum l) (PyInt 0).

Definition py_len {A} (l : list A) : pyval := PyInt (Z.of_nat (length l)).

(** [a / b]: only int by int zero raises; a runtime number divided by
    zero is whatever the numeric library's division makes of it. *)
Definition py_truediv (a b : pyval) : result pyval :=
  match a, b with
  | PyInt x, PyInt y =>
      if (y =? 0)%Z then Raise ZeroDivisionError
      else Ok (PyNum (sc_div (sc_of_int x) (sc_of_int y)))
  | PyInt x, PyNum y => Ok (PyNum (sc_div (sc_of_int x) y))
  | PyNum x, PyInt y => Ok (PyNum (sc_div x (sc_of_int y)))
  | PyNum x, PyNum y => Ok (PyNum (sc_div x y))
  end.

(** The arithmetic mean as the words have it: the elements added up in
    the order they were inserted, divided by their number. *)
Definition sum_in_order (l : list scalar) : scalar :=
  fold_left sc_add l (sc_of_int 0).

Definition arith_mean (l : list scalar) : scalar :=
  sc_div (sum_in_order l) (sc_of_int (Z.of_nat (length l))).

(** [d[key]] on a dict kept as an association list. *)
Fixpoint dict_get {V} (d : list (string * V)) (key : string) : result V :=
  match d with
  | [] => Raise (KeyError key)
  | (k, v) :: d' => if String.eqb k key then Ok v else dict_get d' key
  end.

End PyArith.

(** ** The collaborators *)

(** What the module is called with: the features reshaped to
    [(len, 784)] and the labels as int32. *)
Definition forward_inputs `{Scalar} : Type := (ndarray scalar * ndarray Z)%type.

(** A batch of a data loader: [(data, target)]. *)
Definition batch `{Scalar} : Type := (ndarray scalar * ndarray Z)%type.

Inductive rt_result (A : Type) : Type :=
| Returned (a : A)
| Failed (e : rt_error).

Arguments Returned {A} a.
Arguments Failed {A} e.

(** The capability interface of the training runtime and the inference
    engine.  [rt_state] is everything the runtime
    owns: checkpoint state, gradients, the mode of the module, the files
    it wrote.  A call returns the new state and either a value or an
    error; the two mode toggles only set a flag and cannot fail. *)
Class TrainingRuntime `{Scalar} : Type := {
  rt_state : Type;
  module_train : rt_state -> rt_state;
  module_eval : rt_state -> rt_state;
  module_call : rt_state -> forward_inputs ->
                rt_state * rt_result (scalar * ndarray scalar);
  optimizer_step : rt_state -> rt_state * rt_result unit;
  module_reset_grad : rt_state -> rt_state * rt_result unit;
  module_export_model_for_inferencing :
    rt_state -> string -> list string -> rt_state * rt_result unit;
  session : Type;
  inference_session : rt_state -> string -> list string -> rt_result session;
  session_get_inputs : session -> list string;
  session_get_outputs : session -> list string;
  session_run : session -> list string -> list (string * ndarray scalar) ->
                rt_result (list (ndarray scalar))
}.

(** The metric library: an aggregator object is loaded by name, fed
    [(references, predictions)] batch by batch and finalised into a dict
    of metric values.  Any of the three can raise. *)
Class MetricLibrary `{Scalar} : Type := {
  metric : Type;
  evaluate_load : string -> result metric;
  metric_add_batch : metric -> ndarray Z -> ndarray Z -> result metric;
  metric_compute : metric -> result (list (string * scalar))
}.

(** ** Trace of collaborator calls *)

(** The three lines the notebook prints, before formatting. *)
Inductive report `{Scalar} : Type :=
| TrainReport (epoch : Z) (loss : pyval)
| TestReport (epoch : Z) (loss : pyval) (accuracy : scalar)
| PredictedLabel (label : ndarray Z).

Inductive call `{Scalar} : Type :=
| CModelTrain
| CModelEval
| CModelCall (inputs : forward_inputs)
| COptimizerStep
| CResetGrad
| CEvaluateLoad (name : string)
| CAddBatch (references predictions : ndarray Z)
| CCompute
| CPrint (line : report)
| CExport (path : string) (output_names : list string)
| CInferenceSession (path : string) (providers : list string)
| CGetInputs
| CGetOutputs
| CSessionRun (output_names : list string)
              (feeds : list (string * ndarray scalar))
| CImshow (img : ndarray scalar) (cmap : string)
| CShow.

(** What a call gave back, as far as the properties below look at it. *)
Inductive retval `{Scalar} : Type :=
| RNone
| RForward (loss : scalar) (logits : ndarray scalar)
| RNames (names : list string)
| ROutputs (outputs : list (ndarray scalar))
| RMetrics (metrics : list (string * scalar)).

Record event `{Scalar} : Type := Event {
  ev_call : call;
  ev_outcome : result retval
}.

(** ** The monad of a notebook cell *)

(** A cell runs against the runtime's state, ends with a value or an
    exception, and leaves the calls it made, in order. *)
Definition M (S E A : Type) : Type := S -> result A * S * list E.

Definition ret {S E A} (a : A) : M S E A := fun s => (Ok a, s, []).

Definition bind {S E A B} (m : M S E A) (k : A -> M S E B) : M S E B :=
  fun s =>
    match m s with
    | (Ok a, s1, t1) =>
        match k a s1 with
        | (r, s2, t2) => (r, s2, t1 ++ t2)
        end
    | (Raise e, s1, t1) => (Raise e, s1, t1)
    end.

(** A pure computation that may raise. *)
Definition lift {S E A} (r : result A) : M S E A := fun s => (r, s, []).

Notation "x <- c ;; k" := (bind c (fun x => k))
  (at level 61, c at next level, right associativity).
Notation "' pat <- c ;; k" := (bind c (fun x => match x with pat => k end))
  (at level 61, pat pattern, c at next level, right associativity).
Notation "c ;; k" := (bind c (fun _ => k))
  (at level 61, right associativity).

(** [for x in xs: acc = body(acc, x)]: the loop variable state [acc] is
    what the body rebinds or mutates. *)
Fixpoint for_each {S E A B} (xs : list A) (acc : B) (body : B -> A -> M S E B)
  : M S E B :=
  match xs with
  | [] => ret acc
  | x :: xs' => acc' <- body acc x ;; for_each xs' acc' body
  end.

(** [enumerate(xs)], counting from [i]. *)
Fixpoint enumerate_from {A} (i : nat) (xs : list A) : list (nat * A) :=
  match xs with
  | [] => []
  | x :: xs' => (i, x) :: enumerate_from (S i) xs'
  end.

Definition enumerate {A} (xs : list A) : list (nat * A) := enumerate_from 0 xs.

(** [next(iter(xs))] *)
Definition next_iter {A} (xs : list A) : result A :=
  match xs with
  | [] => Raise StopIteration
  | x :: _ => Ok x
  end.

Definition result_of_rt {A} (r : rt_result A) : result A :=
  match r with
  | Returned a => Ok a
  | Failed e => Raise (RuntimeFailure e)
  end.

(** ** The notebook *)

(** The two data loaders of the data-preparation cell: finite and
    restartable, so each is the list of batches one pass yields. *)
Record loaders `{Scalar} : Type := Loaders {
  train_loader : list batch;
  test_loader : list batch
}.

Section Notebook.
Context `{SC : Scalar} {RT : TrainingRuntime} {ML : MetricLibrary}.

Definition NB : Type -> Type := M rt_state event.

Definition outcome_of {A} (rv : A -> retval) (r : result A) : result retval :=
  match r with
  | Ok a => Ok (rv a)
  | Raise e => Raise e
  end.

(** One call into a collaborator: the state moves, the call and its
    outcome are recorded, an error becomes the exception of the cell. *)
Definition perform {A} (c : call) (rv : A -> retval)
           (f : rt_state -> rt_state * result A) : NB A :=
  fun s =>
    let '(s', r) := f s in
    (r, s', [Event c (outcome_of rv r)]).

Definition on_state {A} (f : rt_state -> rt_state * rt_result A)
  : rt_state -> rt_state * result A :=
  fun s => let '(s', r) := f s in (s', result_of_rt r).

Definition stateless {A} (r : result A) : rt_state -> rt_state * result A :=
  fun s => (s, r).

Definition no_value {A} (_ : A) : retval := RNone.

(** [model.train()] and [model.eval()] *)
Definition model_train : NB unit :=
  perform CModelTrain no_value (fun s => (module_train s, Ok tt)).

Definition model_eval : NB unit :=
  perform CModelEval no_value (fun s => (module_eval s, Ok tt)).

(** [model(forward_inputs)] *)
Definition model_call (inputs : forward_inputs) : NB (scalar * ndarray scalar) :=
  perform (CModelCall inputs) (fun r => RForward (fst r) (snd r))
          (on_state (fun s => module_call s inputs)).

(** [optimizer.step()] and [model.reset_grad()] *)
Definition optimizer_step_call : NB unit :=
  perform COptimizerStep no_value (on_state optimizer_step).

Definition model_reset_grad : NB unit :=
  perform CResetGrad no_value (on_state module_reset_grad).

(** [evaluate.load(name)], [metric.add_batch(...)], [metric.compute()] *)
Definition evaluate_load_call (name : string) : NB metric :=
  perform (CEvaluateLoad name) no_value (stateless (evaluate_load name)).

Definition add_batch_call (m : metric) (references predictions : ndarray Z)
  : NB metric :=
  perform (CAddBatch references predictions) no_value
          (stateless (metric_add_batch m references predictions)).

Definition compute_call (m : metric) : NB (list (string * scalar)) :=
  perform CCompute RMetrics (stateless (metric_compute m)).

Definition print (line : report) : NB unit :=
  perform (CPrint line) no_value (stateless (Ok tt)).

(** The inference-side calls. *)
Definition export_model_for_inferencing (path : string) (names : list string)
  : NB unit :=
  perform (CExport path names) no_value
          (on_state (fun s => module_export_model_for_inferencing s path names)).

Definition new_inference_session (path : string) (providers : list string)
  : NB session :=
  perform (CInferenceSession path providers) no_value
          (fun s => (s, result_of_rt (inference_session s path providers))).

Definition get_inputs_call (sess : session) : NB (list string) :=
  perform CGetInputs RNames (stateless (Ok (session_get_inputs sess))).

Definition get_outputs_call (sess : session) : NB (list string) :=
  perform CGetOutputs RNames (stateless (Ok (session_get_outputs sess))).

Definition session_run_call (sess : session) (names : list string)
           (feeds : list (string * ndarray scalar))
  : NB (list (ndarray scalar)) :=
  perform (CSessionRun names feeds) ROutputs
          (stateless (result_of_rt (session_run sess names feeds))).

(** [plt.imshow(img, cmap=...)]: matplotlib is not part of the
    repository; it draws an (M, N) array of scalars, or an (M, N, 1),
    (M, N, 3) or (M, N, 4) one, and raises [TypeError] on an array of any
    other shape. *)
Definition image_shape (dims : list nat) : bool :=
  match dims with
  | [_; _] => true
  | [_; _; channels] => (channels =? 1) || (channels =? 3) || (channels =? 4)
  | _ => false
  end.

Definition imshow (img : ndarray scalar) (cmap : string) : NB unit :=
  perform (CImshow img cmap) no_value
          (stateless (if image_shape (shape img) then Ok tt else Raise TypeError)).

Definition show : NB unit :=
  perform CShow no_value (stateless (Ok tt)).

(** [[data.reshape(len(data),784).numpy(), target.numpy().astype(np.int32)]] *)
Definition make_forward_inputs (data : ndarray scalar) (target : ndarray Z)
  : result forward_inputs :=
  match tensor_len data with
  | Raise e => Raise e
  | Ok n =>
      match reshape data [n; 784] with
      | Raise e => Raise e
      | Ok x => Ok (numpy x, astype_int32 (numpy target))
      end
  end.

(** [sum(losses)/len(losses)] *)
Definition mean_loss (losses : list scalar) : result pyval :=
  py_truediv (py_sum losses) (py_len losses).

Variable ld : loaders.

(** The body of the loop of [train]: [losses] is the list it appends to. *)
Definition train_step (losses : list scalar) (item : nat * batch)
  : NB (list scalar) :=
  let '(batch_idx, (data, target)) := item in
  forward_inputs <- lift (make_forward_inputs data target) ;;
  ' (train_loss, _) <- model_call forward_inputs ;;
  optimizer_step_call ;;
  model_reset_grad ;;
  ret (losses ++ [train_loss]).

(** The loop of [train], from [losses = []]. *)
Definition train_loop : NB (list scalar) :=
  for_each (enumerate (train_loader ld)) [] train_step.

(** [def train(epoch)] *)
Definition train (epoch : Z) : NB unit :=
  model_train ;;
  losses <- train_loop ;;
  loss <- lift (mean_loss losses) ;;
  print (TrainReport (epoch + 1) loss).

(** The body of the loop of [test]: the metric object and [losses] are
    what it mutates. *)
Definition test_step (acc : metric * list scalar) (item : nat * batch)
  : NB (metric * list scalar) :=
  let '(metric_obj, losses) := acc in
  let '(batch_idx, (data, target)) := item in
  forward_inputs <- lift (make_forward_inputs data target) ;;
  ' (test_loss, logits) <- model_call forward_inputs ;;
  predictions <- lift (get_pred logits) ;;
  metric_obj' <- add_batch_call metric_obj target predictions ;;
  ret (metric_obj', losses ++ [test_loss]).

(** The loop of [test], from a fresh metric object and [losses = []]. *)
Definition test_loop (metric_obj : metric) : NB (metric * list scalar) :=
  for_each (enumerate (train_loader ld)) (metric_obj, []) test_step.

(** [def test(epoch)] *)
Definition test (epoch : Z) : NB unit :=
  model_eval ;;
  metric_obj <- evaluate_load_call "accuracy" ;;
  ' (metric_obj', losses) <- test_loop metric_obj ;;
  metrics <- compute_call metric_obj' ;;
  loss <- lift (mean_loss losses) ;;
  accuracy <- lift (dict_get metrics "accuracy") ;;
  print (TestReport (epoch + 1) loss accuracy).

(** [for epoch in range(n): train(epoch); test(epoch)] *)
Definition epoch_body (_ : unit) (epoch : nat) : NB unit :=
  train (Z.of_nat epoch) ;;
  test (Z.of_nat epoch).

Definition run_epochs (n : nat) : NB unit :=
  for_each (seq 0 n) tt epoch_body.

Definition epoch_loop : NB unit := run_epochs 5.

(** The export cell. *)
Definition export_cell : NB session :=
  export_model_for_inferencing "data/inference_model.onnx" ["output-0"%string] ;;
  new_inference_session "data/inference_model.onnx" ["CPUExecutionProvider"%string].

(** The cell that runs one example of the test loader through the
    exported graph. *)
Definition inference_cell (sess : session) : NB unit :=
  first_batch <- lift (next_iter (test_loader ld)) ;;
  data <- lift (getitem0 (fst first_batch)) ;;
  inputs <- get_inputs_call sess ;;
  input_name <- lift (list_getitem0 inputs) ;;
  outputs <- get_outputs_call sess ;;
  output_name <- lift (list_getitem0 outputs) ;;
  x <- lift (reshape data [1; 784]) ;;
  output <- session_run_call sess [output_name] [(input_name, numpy x)] ;;
  img <- lift (getitem0 data) ;;
  imshow img "gray" ;;
  show ;;
  out0 <- lift (list_getitem0 output) ;;
  label <- lift (get_pred out0) ;;
  print (PredictedLabel label).

(** Export, then run: the last two stages of the notebook. *)
Definition run_inferencing : NB unit :=
  sess <- export_cell ;;
  inference_cell sess.

(** The notebook from the training cell on. *)
Definition notebook : NB unit :=
  epoch_loop ;;
  run_inferencing.

End Notebook.

(** ** Reading a run *)

Definition result_of {S E A} (m : M S E A) (s : S) : result A := fst (fst (m s)).
Definition final_state {S E A} (m : M S E A) (s : S) : S := snd (fst (m s)).
Definition trace_of {S E A} (m : M S E A) (s : S) : list E := snd (m s).

Definition is_prefix {A} (u v : list A) : Prop := exists w, v = u ++ w.

(** The three runtime entry points of a training iteration. *)
Inductive step_kind : Type := Forward | Step | Reset.

Definition step_kind_eq_dec (a b : step_kind) : {a = b} + {a <> b}.
Proof. decide equality. Defined.

Section Observations.
Context `{SC : Scalar}.

Definition ok_event (c : call) (v : retval) : event := Event c (Ok v).
Definition failed_event (c : call) (e : rt_error) : event :=
  Event c (Raise (RuntimeFailure e)).

Definition kind_of (e : event) : list step_kind :=
  match ev_call e with
  | CModelCall _ => [Forward]
  | COptimizerStep => [Step]
  | CResetGrad => [Reset]
  | _ => []
  end.

(** A trace seen through the three entry points only. *)
Definition runtime_steps (tr : list event) : list step_kind :=
  flat_map kind_of tr.

(** [n] iterations of forward, step, reset. *)
Fixpoint batch_cycles (n : nat) : list step_kind :=
  match n with
  | 0 => []
  | S n' => Forward :: Step :: Reset :: batch_cycles n'
  end.

(** The losses the module returned, in the order of the calls. *)
Definition loss_of (e : event) : list scalar :=
  match ev_call e, ev_outcome e with
  | CModelCall _, Ok (RForward loss _) => [loss]
  | _, _ => []
  end.

Definition losses_of (tr : list event) : list scalar := flat_map loss_of tr.

(** The inputs the module was called with, in order. *)
Definition inputs_of (e : event) : list forward_inputs :=
  match ev_call e with
  | CModelCall x => [x]
  | _ => []
  end.

Definition forward_calls (tr : list event) : list forward_inputs :=
  flat_map inputs_of tr.

Definition count_calls (p : call -> bool) (tr : list event) : nat :=
  length (filter (fun e => p (ev_call e)) tr).



Definition is_print (c : call) : bool :=
  match c with CPrint _ => true | _ => false end.




Definition is_export (c : call) : bool :=
  match c with CExport _ _ => true | _ => false end.

Definition is_new_session (c : call) : bool :=
  match c with CInferenceSession _ _ => true | _ => false end.

Definition is_session_run (c : call) : bool :=
  match c with CSessionRun _ _ => true | _ => false end.

(** A failed collaborator call ends the run: nothing is called after
    it, and its error is what the run raises. *)
Definition fails_last {A} (r : result A) (tr : list event) : Prop :=
  forall pre e post x,
    tr = pre ++ e :: post ->
    ev_outcome e = Raise x ->
    post = [] /\ r = Raise x.

(** A cell all of whose runs stop at the first failed call. *)
Definition fail_stop {S A} (m : M S event A) : Prop :=
  forall s, fails_last (result_of m s) (trace_of m s).



(** A stretch of a trace in which nothing is printed. *)
Definition quiet (tr : list event) : Prop :=
  Forall (fun e => is_print (ev_call e) = false) tr.


(** The batches of a loader as the module is to see them. *)
Fixpoint all_forward_inputs (bs : list batch) : result (list forward_inputs) :=
  match bs with
  | [] => Ok []
  | (data, target) :: bs' =>
      match make_forward_inputs data target with
      | Raise e => Raise e
      | Ok x =>
          match all_forward_inputs bs' with
          | Raise e => Raise e
          | Ok xs => Ok (x :: xs)
          end
      end
  end.





(** The module is called on the batches of [bs], each once and in order,
    up to where the loop stops; on all of them when [r_ok]. *)
Definition submitted_in_order (bs : list batch) (r_ok : Prop) (tr : list event) : Prop :=
  exists k,
    k <= length bs /\
    all_forward_inputs (firstn k bs) = Ok (forward_calls tr) /\
    (r_ok -> k = length bs).

End Observations.

(** ** The runtime as the capability contract describes it *)

Section SpecRuntime.
Context `{SC : Scalar}.
Variables Ckpt Grad : Type.

(** The graph artifacts, opaque to the notebook, as the functions they
    compute. *)
Record artifacts : Type := Artifacts {
  train_graph : Ckpt -> forward_inputs -> rt_result (scalar * ndarray scalar * Grad);
  eval_graph : Ckpt -> forward_inputs -> rt_result (scalar * ndarray scalar);
  accumulate : Grad -> Grad -> Grad;
  zero_grad : Grad;
  optimizer_graph : Ckpt -> Grad -> rt_result Ckpt;
  graph_inputs : list string;
  inference_output : Ckpt -> string -> list (string * ndarray scalar) ->
                     rt_result (ndarray scalar)
}.

(** An exported inference graph: its declared inputs and outputs and
    the parameters frozen into it. *)
Record inference_graph : Type := InferenceGraph {
  g_inputs : list string;
  g_outputs : list string;
  g_params : Ckpt
}.

Record spec_state : Type := SpecState {
  checkpoint : Ckpt;
  gradients : Grad;
  training : bool;
  files : list (string * inference_graph)
}.

Variable art : artifacts.

Definition spec_set_mode (mode : bool) (s : spec_state) : spec_state :=
  {| checkpoint := checkpoint s; gradients := gradients s;
     training := mode; files := files s |}.

Definition spec_module_call (s : spec_state) (x : forward_inputs)
  : spec_state * rt_result (scalar * ndarray scalar) :=
  if training s then
    match train_graph art (checkpoint s) x with
    | Returned (loss, outputs, g) =>
        ({| checkpoint := checkpoint s;
            gradients := accumulate art (gradients s) g;
            training := training s; files := files s |},
         Returned (loss, outputs))
    | Failed e => (s, Failed e)
    end
  else (s, eval_graph art (checkpoint s) x).

Definition spec_optimizer_step (s : spec_state) : spec_state * rt_result unit :=
  match optimizer_graph art (checkpoint s) (gradients s) with
  | Returned c =>
      ({| checkpoint := c; gradients := gradients s;
          training := training s; files := files s |}, Returned tt)
  | Failed e => (s, Failed e)
  end.

Definition spec_reset_grad (s : spec_state) : spec_state * rt_result unit :=
  ({| checkpoint := checkpoint s; gradients := zero_grad art;
      training := training s; files := files s |}, Returned tt).

Definition spec_export (s : spec_state) (path : string) (names : list string)
  : spec_state * rt_result unit :=
  ({| checkpoint := checkpoint s; gradients := gradients s;
      training := training s;
      files := (path, {| g_inputs := graph_inputs art; g_outputs := names;
                         g_params := checkpoint s |}) :: files s |},
   Returned tt).

Fixpoint find_file (fs : list (string * inference_graph)) (path : string)
  : rt_result inference_graph :=
  match fs with
  | [] => Failed ArtifactLoadError
  | (p, g) :: fs' => if String.eqb p path then Returned g else find_file fs' path
  end.

Definition spec_inference_session (s : spec_state) (path : string)
           (providers : list string) : rt_result inference_graph :=
  find_file (files s) path.

Definition declared (g : inference_graph) (name : string) : bool :=
  existsb (String.eqb name) (g_outputs g).

Fixpoint fetch_outputs (g : inference_graph) (names : list string)
         (feeds : list (string * ndarray scalar))
  : rt_result (list (ndarray scalar)) :=
  match names with
  | [] => Returned []
  | n :: names' =>
      match inference_output art (g_params g) n feeds with
      | Failed e => Failed e
      | Returned y =>
          match fetch_outputs g names' feeds with
          | Failed e => Failed e
          | Returned ys => Returned (y :: ys)
          end
      end
  end.

Definition spec_session_run (g : inference_graph) (names : list string)
           (feeds : list (string * ndarray scalar))
  : rt_result (list (ndarray scalar)) :=
  if forallb (declared g) names then fetch_outputs g names feeds
  else Failed LookupError.

(** What a forward-only pass on [x] gives back under checkpoint [c]. *)
Definition eval_outcome (c : Ckpt) (x : forward_inputs) : result retval :=
  match eval_graph art c x with
  | Returned (loss, logits) => Ok (RForward loss logits)
  | Failed e => Raise (RuntimeFailure e)
  end.

(** A forward pass that returned came out of the training graph. *)
Definition from_train_graph (e : event) : Prop :=
  forall x loss logits,
    e = ok_event (CModelCall x) (RForward loss logits) ->
    exists c g, train_graph art c x = Returned (loss, logits, g).

(** Modelled from the spec: the training runtime and the inference
    engine are an external library, absent from the repository.  Per the
    capability contract: the mode toggles set the mode; running the
    module is a forward pass, which in train mode also accumulates
    gradients and in eval mode touches nothing; the optimizer step
    applies the accumulated gradients to the checkpoint state; the export
    materialises a graph naming the requested outputs; a session runs
    the declared outputs it is asked for and rejects any other name with
    a lookup error. *)
Definition SpecRuntime : TrainingRuntime :=
  {| rt_state := spec_state;
     module_train := spec_set_mode true;
     module_eval := spec_set_mode false;
     module_call := spec_module_call;
     optimizer_step := spec_optimizer_step;
     module_reset_grad := spec_reset_grad;
     module_export_model_for_inferencing := spec_export;
     session := inference_graph;
     inference_session := spec_inference_session;
     session_get_inputs := g_inputs;
     session_get_outputs := g_outputs;
     session_run := spec_session_run |}.

End SpecRuntime.

(** ** An accuracy aggregator *)

Section Accuracy.
Context `{SC : Scalar}.

(** The pairs [(reference, prediction)] added so far. *)
Definition accuracy_state : Type := list (Z * Z).

Definition accuracy_load (name : string) : result accuracy_state :=
  if String.eqb name "accuracy" then Ok [] else Raise (MetricFailure name).

Definition accuracy_add_batch (m : accuracy_state) (references predictions : ndarray Z)
  : result accuracy_state :=
  if length (data references) =? length (data predictions)
  then Ok (m ++ combine (data references) (data predictions))
  else Raise ValueError.

Definition hits (m : accuracy_state) : nat :=
  length (filter (fun p => (fst p =? snd p)%Z) m).

(** Finalising an aggregator nothing was added to raises: there is
    nothing to compute from. *)
Definition accuracy_compute (m : accuracy_state) : result (list (string * scalar)) :=
  match m with
  | [] => Raise ValueError
  | _ :: _ =>
      Ok [("accuracy"%string,
           sc_div (sc_of_int (Z.of_nat (hits m))) (sc_of_int (Z.of_nat (length m))))]
  end.

(** A stand-in for the external metric library, enough to run [test]:
    the fraction of predictions equal to their reference. *)
Definition AccuracyMetric : MetricLibrary :=
  {| metric := accuracy_state;
     evaluate_load := accuracy_load;
     metric_add_batch := accuracy_add_batch;
     metric_compute := accuracy_compute |}.

End Accuracy.

(** ** A small concrete instance *)

(** Integer scalars, a one-number checkpoint and two batches of one blank
    image each: enough to run every cell. *)
Module Demo.

Definition demo_logits (c : Z) (x : @forward_inputs ZScalar) : ndarray Z :=
  {| shape := [length (data (snd x)); 3];
     data := flat_map (fun _ => [0; c; 1]%Z) (data (snd x)) |}.

Definition demo_artifacts : @artifacts ZScalar Z Z :=
  {| train_graph := fun c x => Returned (c, demo_logits c x, 1%Z);
     eval_graph := fun c x => Returned (c, demo_logits c x);
     accumulate := Z.add;
     zero_grad := 0%Z;
     optimizer_graph := fun c g => Returned (c - g)%Z;
     graph_inputs := ["input-0"%string];
     inference_output := fun c _ feeds => Returned {| shape := [1; 3]; data := [0; c; 1]%Z |} |}.

Definition demo_runtime : @TrainingRuntime ZScalar :=
  @SpecRuntime ZScalar Z Z demo_artifacts.

Definition demo_metric : @MetricLibrary ZScalar := @AccuracyMetric ZScalar.

Definition blank_image : ndarray Z :=
  {| shape := [1; 1; 28; 28]; data := repeat 0%Z 784 |}.

Definition demo_batch (label : Z) : @batch ZScalar :=
  (blank_image, {| shape := [1]; data := [label] |}).

Definition demo_loaders : @loaders ZScalar :=
  {| train_loader := [demo_batch 1; demo_batch 7];
     test_loader := [demo_batch 2] |}.

Definition no_batches : @loaders ZScalar :=
  {| train_loader := []; test_loader := [demo_batch 2] |}.

Definition demo_state : @spec_state Z Z :=
  {| checkpoint := 5%Z; gradients := 0%Z; training := false; files := [] |}.

(** A runtime whose optimizer graph fails once the checkpoint has reached
    [4]: with [demo_state], on the second batch. *)
Definition failing_artifacts : @artifacts ZScalar Z Z :=
  {| train_graph := train_graph demo_artifacts;
     eval_graph := eval_graph demo_artifacts;
     accumulate := Z.add;
     zero_grad := 0%Z;
     optimizer_graph := fun c g => if (c =? 4)%Z then Failed ExecutionError
                                   else Returned (c - g)%Z;
     graph_inputs := ["input-0"%string];
     inference_output := inference_output demo_artifacts |}.

Definition failing_runtime : @TrainingRuntime ZScalar :=
  @SpecRuntime ZScalar Z Z failing_artifacts.

(** A training loader that yields the same batch twice. *)
Definition repeated_batch : @loaders ZScalar :=
  {| train_loader := [demo_batch 1; demo_batch 1]; test_loader := [] |}.

(** The same training loader with nothing to test on. *)
Definition no_test_batches : @loaders ZScalar :=
  {| train_loader := train_loader demo_loaders; test_loader := [] |}.

(** A 2-D array with one row and no column. *)
Definition no_columns : ndarray Z := {| shape := [1; 0]; data := [] |}.

Definition two_rows : ndarray Z :=
  {| shape := [2; 3]; data := [1; 9; 9; 4; 2; 0]%Z |}.

(** Rows that hold a NaN: [[1, nan, 3], [nan, 5, nan], [2, 7, 7]]. *)
Definition nan_rows : ndarray (option Z) :=
  {| shape := [3; 3];
     data := [Some 1; None; Some 3; None; Some 5; None; Some 2; Some 7; Some 7]%Z |}.



End Demo.

(** ** The offline cell that names the inputs and outputs of the graph *)

(** [str(n)] of a natural number, as an f-string formats it: the decimal
    digits, no leading zero. *)
Definition str_of_nat (n : nat) : string :=
  DecimalString.NilEmpty.string_of_uint (Nat.to_uint n).

(** A Python dict as the list of its items, in insertion order. *)
Fixpoint dict_lookup {K V} (eqb : K -> K -> bool) (d : list (K * V)) (k : K)
  : option V :=
  match d with
  | [] => None
  | (k', v) :: d' => if eqb k' k then Some v else dict_lookup eqb d' k
  end.

(** [d[k] = v]: a key already there keeps its place, a new one goes last. *)
Fixpoint dict_set {K V} (eqb : K -> K -> bool) (d : list (K * V)) (k : K) (v : V)
  : list (K * V) :=
  match d with
  | [] => [(k, v)]
  | (k', v') :: d' =>
      if eqb k' k then (k, v) :: d' else (k', v') :: dict_set eqb d' k v
  end.

Definition dict_keys {K V} (d : list (K * V)) : list K := map fst d.

(** The dict of one tensor: axis index to axis name. *)
Definition axes_dict : Type := list (nat * string).

(** [dynamic_axes]: tensor name to the dict of its axes. *)
Definition dynamic_axes_dict : Type := list (string * axes_dict).

(** [dynamic_axes[name].update({dim_idx: f"{name}_dim{dim_idx}"})]: the
    dict stored under [name] is the one that is updated. *)
Definition update_axis (axes : dynamic_axes_dict) (name : string) (dim_idx : nat)
  : result dynamic_axes_dict :=
  match dict_lookup String.eqb axes name with
  | None => Raise (KeyError name)
  | Some inner =>
      Ok (dict_set String.eqb axes name
            (dict_set Nat.eqb inner dim_idx
                      (name ++ "_dim" ++ str_of_nat dim_idx)%string))
  end.

(** [for dim_idx in dims: ...] *)
Fixpoint update_axes (axes : dynamic_axes_dict) (name : string) (dims : list nat)
  : result dynamic_axes_dict :=
  match dims with
  | [] => Ok axes
  | dim_idx :: dims' =>
      match update_axis axes name dim_idx with
      | Raise e => Raise e
      | Ok axes' => update_axes axes' name dims'
      end
  end.

Section Naming.
Context `{SC : Scalar}.

(** What the model returned, before the [isinstance] test: one tensor or
    a sequence of them. *)
Inductive model_result : Type :=
| OneTensor (t : ndarray scalar)
| TensorList (ts : list (ndarray scalar)).

(** [if isinstance(model_outputs, torch.Tensor): model_outputs = [model_outputs]] *)
Definition as_tensor_list (r : model_result) : list (ndarray scalar) :=
  match r with
  | OneTensor t => [t]
  | TensorList ts => ts
  end.

(** The body of either naming loop: [names] is the list appended to. *)
Definition name_tensor (prefix : string) (acc : list string * dynamic_axes_dict)
           (item : nat * ndarray scalar) : result (list string * dynamic_axes_dict) :=
  let '(names, axes) := acc in
  let '(i, tensor) := item in
  let name := (prefix ++ str_of_nat i)%string in
  let names' := names ++ [name] in
  let axes' := dict_set String.eqb axes name [] in
  match update_axes axes' name (seq 0 (length (shape tensor))) with
  | Raise e => Raise e
  | Ok axes'' => Ok (names', axes'')
  end.

Fixpoint name_tensors (prefix : string) (items : list (nat * ndarray scalar))
         (acc : list string * dynamic_axes_dict)
  : result (list string * dynamic_axes_dict) :=
  match items with
  | [] => Ok acc
  | item :: items' =>
      match name_tensor prefix acc item with
      | Raise e => Raise e
      | Ok acc' => name_tensors prefix items' acc'
      end
  end.

Record naming : Type := Naming {
  input_names : list string;
  output_names : list string;
  dynamic_axes : dynamic_axes_dict
}.

(** The two loops of the cell that prepares [torch.onnx.export]. *)
Definition naming_cell (model_inputs : list (ndarray scalar))
           (model_outputs : model_result) : result naming :=
  let model_outputs := as_tensor_list model_outputs in
  match name_tensors "input-"%string (enumerate model_inputs) ([], []) with
  | Raise e => Raise e
  | Ok (input_names, axes) =>
      match name_tensors "output-"%string (enumerate model_outputs) ([], axes) with
      | Raise e => Raise e
      | Ok (output_names, axes') =>
          Ok {| input_names := input_names;
                output_names := output_names;
                dynamic_axes := axes' |}
      end
  end.

(** The name tensor [i] gets and the dict of its axes. *)
Definition tensor_name (prefix : string) (i : nat) : string :=
  (prefix ++ str_of_nat i)%string.

Definition axes_of (name : string) (rank : nat) : axes_dict :=
  map (fun dim_idx => (dim_idx, (name ++ "_dim" ++ str_of_nat dim_idx)%string))
      (seq 0 rank).

(** The names the loop gives the tensors of [ts], and the entries it
    leaves in [dynamic_axes] for them. *)
Definition names_for (prefix : string) (ts : list (ndarray scalar)) : list string :=
  map (tensor_name prefix) (seq 0 (length ts)).

Definition entry_for (prefix : string) (item : nat * ndarray scalar)
  : string * axes_dict :=
  (tensor_name prefix (fst item),
   axes_of (tensor_name prefix (fst item)) (length (shape (snd item)))).

Definition entries_for (prefix : string) (ts : list (ndarray scalar))
  : dynamic_axes_dict :=
  map (entry_for prefix) (enumerate ts).

(** [dynamic_axes[name].get(dim_idx)], and nothing for a name that is
    not a key. *)
Definition axis_label (nm : naming) (name : string) (dim_idx : nat) : option string :=
  match dict_lookup String.eqb (dynamic_axes nm) name with
  | None => None
  | Some inner => dict_lookup Nat.eqb inner dim_idx
  end.

(** The output names a run asked the export for. *)
Definition exported_by (e : event) : list string :=
  match ev_call e with
  | CExport _ names => names
  | _ => []
  end.

Definition exported_names (tr : list event) : list string := flat_map exported_by tr.

(** ** Reading the reports of a run *)

(** A printed line without the numbers in it. *)
Inductive report_tag : Type :=
| TrainLine (epoch : Z)
| TestLine (epoch : Z)
| LabelLine.

Definition tag_of (line : report) : report_tag :=
  match line with
  | TrainReport epoch _ => TrainLine epoch
  | TestReport epoch _ _ => TestLine epoch
  | PredictedLabel _ => LabelLine
  end.

Definition line_of (e : event) : list report_tag :=
  match ev_call e with
  | CPrint line => [tag_of line]
  | _ => []
  end.

(** The lines a run printed, in order. *)
Definition printed (tr : list event) : list report_tag := flat_map line_of tr.

(** What an epoch loop over [epochs] is to print. *)
Definition epoch_lines (epochs : list nat) : list report_tag :=
  flat_map (fun k => [TrainLine (Z.of_nat k + 1); TestLine (Z.of_nat k + 1)]) epochs.

(** The three calls an iteration of [train] makes into the runtime. *)
Definition is_training_call (c : call) : bool :=
  match c with
  | CModelCall _ | COptimizerStep | CResetGrad => true
  | _ => false
  end.

(** A batch of [n] MNIST images: one channel of 28 by 28 pixels each. *)
Definition mnist_batch (n : nat) (t : ndarray scalar) : Prop :=
  shape t = [n; 1; 28; 28] /\ wf_array t.

End Naming.

(** * Properties *)

(** ** [get_pred] *)

Section ArgmaxFacts.
Context `{SC : Scalar}.
Hypothesis Htrans : leb_trans.
Hypothesis Htotal : leb_total_numbers.
Hypothesis Hnan : nan_unordered.

Let d : scalar := sc_of_int 0.

Lemma number_leb_refl (x : scalar) : sc_isnan x = false -> sc_leb x x = true.
Proof. unfold sc_isnan. destruct (sc_leb x x); [reflexivity | discriminate]. Qed.

Lemma leb_false_flip (x y : scalar) :
  sc_isnan x = false -> sc_isnan y = false ->
  sc_leb x y = false -> sc_leb y x = true.
Proof. intros Hx Hy Hf. destruct (Htotal x y Hx Hy) as [H | H]; congruence. Qed.

(** Below a number there are only numbers, and it is their upper bound in
    the order of the maximum too. *)
Lemma max_leb_number (x y : scalar) : sc_leb x y = true -> max_leb x y = true.
Proof. intros H. unfold max_leb. rewrite H. apply orb_true_r. Qed.

Lemma max_leb_strict (x y : scalar) :
  sc_leb y x = true -> sc_leb x y = false -> max_leb x y = false.
Proof.
  intros Hyx Hxy. unfold max_leb.
  destruct (Hnan _ _ Hyx) as [Hy _]. rewrite Hy, Hxy. reflexivity.
Qed.

(** The scan keeps, over the part already read, the index of a largest
    element, a number, before which every element is strictly smaller;
    it ends on the first NaN if there is one. *)
Lemma argmax_from_spec (l pre : list scalar) :
  forall (best_i : nat) (best : scalar),
    best_i < length pre ->
    nth best_i pre d = best ->
    (forall j, j < length pre -> sc_leb (nth j pre d) best = true) ->
    (forall j, j < best_i -> sc_leb best (nth j pre d) = false) ->
    let p := argmax_from best_i best (length pre) l in
    p < length (pre ++ l) /\
    (forall j, j < length (pre ++ l) ->
               max_leb (nth j (pre ++ l) d) (nth p (pre ++ l) d) = true) /\
    (forall j, j < p -> max_leb (nth p (pre ++ l) d) (nth j (pre ++ l) d) = false).
Proof.
  revert pre. induction l as [| x l IH]; intros pre best_i best Hlt Hbest Hmax Hfirst.
  - simpl. rewrite app_nil_r. rewrite Hbest.
    split; [assumption |]. split.
    + intros j Hj. apply max_leb_number, Hmax, Hj.
    + intros j Hj. apply max_leb_strict; [apply Hmax; lia | apply Hfirst, Hj].
  - cbn [argmax_from].
    assert (Hlen : length (pre ++ [x]) = S (length pre))
      by (rewrite length_app; simpl; lia).
    assert (Hnum : sc_isnan best = false)
      by (rewrite <- Hbest; apply (Hnan _ _ (Hmax best_i Hlt))).
    replace (pre ++ x :: l) with ((pre ++ [x]) ++ l)
      by (rewrite <- app_assoc; reflexivity).
    destruct (sc_leb x best) eqn:Hx.
    + rewrite <- Hlen. apply IH.
      * lia.
      * rewrite app_nth1 by assumption. assumption.
      * intros j Hj. rewrite Hlen in Hj.
        destruct (Nat.eq_dec j (length pre)) as [-> | Hne].
        -- rewrite app_nth2, Nat.sub_diag by lia. exact Hx.
        -- rewrite app_nth1 by lia. apply Hmax. lia.
      * intros j Hj. rewrite app_nth1 by lia. apply Hfirst. assumption.
    + destruct (sc_isnan x) eqn:Hxnan.
      * assert (Hp : nth (length pre) ((pre ++ [x]) ++ l) d = x).
        { rewrite app_nth1 by lia. rewrite app_nth2, Nat.sub_diag by lia. reflexivity. }
        rewrite Hp. split; [rewrite !length_app; simpl; lia |]. split.
        -- intros j _. unfold max_leb. rewrite Hxnan. reflexivity.
        -- intros j Hj. rewrite <- app_assoc, app_nth1 by lia.
           unfold max_leb.
           destruct (Hnan _ _ (Hmax j Hj)) as [Hjnum _]. rewrite Hjnum. cbn [orb].
           destruct (sc_leb x (nth j pre d)) eqn:Hxj; [| reflexivity].
           destruct (Hnan _ _ Hxj) as [Hcontra _]. congruence.
      * rewrite <- Hlen. apply IH.
        -- lia.
        -- rewrite app_nth2, Nat.sub_diag by lia. reflexivity.
        -- intros j Hj. rewrite Hlen in Hj.
           destruct (Nat.eq_dec j (length pre)) as [-> | Hne].
           ++ rewrite app_nth2, Nat.sub_diag by lia. apply number_leb_refl, Hxnan.
           ++ rewrite app_nth1 by lia.
              apply Htrans with best; [apply Hmax; lia |].
              apply leb_false_flip; assumption.
        -- intros j Hj. rewrite app_nth1 by lia.
           destruct (sc_leb x (nth j pre d)) eqn:Hxj; [| reflexivity].
           rewrite (Htrans _ _ _ Hxj (Hmax j Hj)) in Hx. discriminate.
Qed.

Lemma argmax_list_spec (l : list scalar) :
  l <> [] ->
  let p := argmax_list l in
  p < length l /\
  (forall j, j < length l -> max_leb (nth j l d) (nth p l d) = true) /\
  (forall j, j < p -> max_leb (nth p l d) (nth j l d) = false).
Proof.
  destruct l as [| x l]; [congruence |]. intros _. cbn [argmax_list].
  destruct (sc_isnan x) eqn:Hxnan.
  - split; [simpl; lia |]. split.
    + intros j _. unfold max_leb. cbn [nth]. rewrite Hxnan. reflexivity.
    + intros j Hj. lia.
  - apply (argmax_from_spec l [x] (best_i := 0) (best := x)); simpl.
    + lia.
    + reflexivity.
    + intros j Hj. assert (j = 0) as -> by lia. apply number_leb_refl, Hxnan.
    + intros j Hj. lia.
Qed.

End ArgmaxFacts.

Lemma flat_map_singleton {A B} (f : A -> B) (l : list A) :
  flat_map (fun x => [f x]) l = map f l.
Proof. induction l as [| x l IH]; simpl; [| rewrite IH]; reflexivity. Qed.

Lemma lane_length `{SC : Scalar} (a : ndarray scalar) (d1 inner i k : nat) :
  length (lane a d1 inner i k) = d1.
Proof. unfold lane. rewrite length_map, length_seq. reflexivity. Qed.

Lemma nth_map_seq {B} (f : nat -> B) (n j : nat) (d : B) :
  j < n -> nth j (map f (seq 0 n)) d = f j.
Proof.
  intros Hj.
  rewrite (nth_indep _ d (f 0)) by (rewrite length_map, length_seq; assumption).
  rewrite (map_nth f), seq_nth by assumption. reflexivity.
Qed.

Lemma lane_row `{SC : Scalar} (a : ndarray scalar) (c i j : nat) :
  j < c -> nth j (lane a c 1 i 0) (sc_of_int 0) = elt2 a c i j.
Proof.
  intros Hj. unfold lane, elt2.
  rewrite nth_map_seq by assumption.
  f_equal. lia.
Qed.

(** C8, as the code has it.  [get_pred] is a function of its argument
    alone.  On a 2-D logits array with no column it raises [ValueError].
    On one with at least one column it returns an array with one entry per
    row, and the entry of row [i] is the index of the first maximum of
    that row, a NaN counting as the largest value as it does for [np.max]:
    no element of the row is above it, and every element before it is
    strictly below it.  The three hypotheses are what IEEE 754 gives of
    [<=] on floats, NaN included. *)
Theorem get_pred_row_argmax `{SC : Scalar} (logits : ndarray scalar) (r c : nat) :
  leb_trans -> leb_total_numbers -> nan_unordered ->
  shape logits = [r; c] ->
  (c = 0 -> get_pred logits = Raise ValueError) /\
  (0 < c ->
   exists preds,
     get_pred logits = Ok preds /\
     shape preds = [r] /\
     length (data preds) = r /\
     forall i, i < r ->
       exists p,
         nth i (data preds) 0%Z = Z.of_nat p /\
         p < c /\
         (forall j, j < c ->
                    max_leb (elt2 logits c i j) (elt2 logits c i p) = true) /\
         (forall j, j < p ->
                    max_leb (elt2 logits c i p) (elt2 logits c i j) = false)).
Proof.
  intros Htr Htot Hnan Hshape.
  unfold get_pred, np_argmax_axis1. rewrite Hshape.
  split; [intros ->; reflexivity |]. intros Hc.
  destruct (Nat.eqb_spec c 0) as [Hz | _]; [lia |].
  cbn [numel fold_right seq map].
  rewrite flat_map_singleton.
  eexists. split; [reflexivity |]. cbn [shape data].
  split; [reflexivity |].
  split; [rewrite length_map, length_seq; reflexivity |].
  intros i Hi.
  exists (argmax_list (lane logits c 1 i 0)).
  split.
  - rewrite nth_map_seq by assumption. reflexivity.
  - assert (Hne : lane logits c 1 i 0 <> []).
    { intros Hnil. apply (f_equal (@length _)) in Hnil.
      rewrite lane_length in Hnil. simpl in Hnil. lia. }
    destruct (argmax_list_spec Htr Htot Hnan Hne) as (Hp & Hmax & Hfirst).
    rewrite lane_length in Hp, Hmax.
    split; [assumption |]. split.
    + intros j Hj. rewrite <- !lane_row by assumption. apply Hmax. assumption.
    + intros j Hj. rewrite <- !lane_row by lia. apply Hfirst. assumption.
Qed.

Lemma nan_leb_trans : @leb_trans NanScalar.
Proof.
  intros [x |] [y |] [z |]; cbn; try discriminate. rewrite !Z.leb_le. lia.
Qed.

Lemma nan_leb_total_numbers : @leb_total_numbers NanScalar.
Proof.
  intros [x |] [y |]; cbn; try discriminate. intros _ _. rewrite !Z.leb_le. lia.
Qed.

Lemma nan_leb_unordered : @nan_unordered NanScalar.
Proof.
  intros [x |] [y |]; cbn; try discriminate. intros _.
  unfold sc_isnan. cbn. rewrite !Z.leb_refl. split; reflexivity.
Qed.

Lemma get_pred_row_argmax_witness :
  @get_pred NanScalar Demo.nan_rows = Ok {| shape := [3]; data := [1; 0; 1]%Z |} /\
  exists preds,
    @get_pred NanScalar Demo.nan_rows = Ok preds /\
    shape preds = [3] /\
    length (data preds) = 3 /\
    forall i, i < 3 ->
      exists p,
        nth i (data preds) 0%Z = Z.of_nat p /\
        p < 3 /\
        (forall j, j < 3 ->
                   @max_leb NanScalar (@elt2 NanScalar Demo.nan_rows 3 i j)
                                      (@elt2 NanScalar Demo.nan_rows 3 i p) = true) /\
        (forall j, j < p ->
                   @max_leb NanScalar (@elt2 NanScalar Demo.nan_rows 3 i p)
                                      (@elt2 NanScalar Demo.nan_rows 3 i j) = false).
Proof.
  split; [reflexivity |].
  apply (@get_pred_row_argmax NanScalar Demo.nan_rows 3 3).
  - exact nan_leb_trans.
  - exact nan_leb_total_numbers.
  - exact nan_leb_unordered.
  - reflexivity.
  - lia.
Defined.

(** C8, as stated, fails on a 2-D array whose rows are empty: there is no
    maximum to point at and [get_pred] raises instead of returning. *)
Lemma get_pred_no_columns :
  shape Demo.no_columns = [1; 0] /\
  wf_array Demo.no_columns /\
  @get_pred ZScalar Demo.no_columns = Raise ValueError.
Proof. repeat split. Qed.

(** ** Running a cell *)

Lemma for_each_cons {S E A B} (x : A) (xs : list A) (acc : B)
      (body : B -> A -> M S E B) (s : S) :
  for_each (x :: xs) acc body s =
  match body acc x s with
  | (Ok acc', s1, t1) =>
      match for_each xs acc' body s1 with
      | (r, s2, t2) => (r, s2, t1 ++ t2)
      end
  | (Raise e, s1, t1) => (Raise e, s1, t1)
  end.
Proof. reflexivity. Qed.

Lemma bind_run {S E A B} (m : M S E A) (k : A -> M S E B) (s : S) :
  bind m k s =
  match m s with
  | (Ok a, s1, t1) =>
      match k a s1 with
      | (r, s2, t2) => (r, s2, t1 ++ t2)
      end
  | (Raise e, s1, t1) => (Raise e, s1, t1)
  end.
Proof. reflexivity. Qed.

Lemma bind_ok {S E A B} (m : M S E A) (k : A -> M S E B) (s s1 s2 : S)
      (a : A) (r : result B) (t t1 t2 : list E) :
  m s = (Ok a, s1, t1) ->
  k a s1 = (r, s2, t2) ->
  t = t1 ++ t2 ->
  bind m k s = (r, s2, t).
Proof. intros Hm Hk ->. rewrite bind_run, Hm, Hk. reflexivity. Qed.

Lemma bind_raise {S E A B} (m : M S E A) (k : A -> M S E B) (s s1 : S)
      (e : exn) (t1 : list E) :
  m s = (Raise e, s1, t1) ->
  bind m k s = (Raise e, s1, t1).
Proof. intros Hm. rewrite bind_run, Hm. reflexivity. Qed.

Lemma for_each_raise {S E A B} (x : A) (xs : list A) (acc : B)
      (body : B -> A -> M S E B) (s s1 : S) (e : exn) (t1 : list E) :
  body acc x s = (Raise e, s1, t1) ->
  for_each (x :: xs) acc body s = (Raise e, s1, t1).
Proof. intros H. rewrite for_each_cons, H. reflexivity. Qed.

Lemma for_each_ok {S E A B} (x : A) (xs : list A) (acc acc' : B)
      (body : B -> A -> M S E B) (s s1 : S) (t1 : list E) :
  body acc x s = (Ok acc', s1, t1) ->
  for_each (x :: xs) acc body s =
  (result_of (for_each xs acc' body) s1,
   final_state (for_each xs acc' body) s1,
   t1 ++ trace_of (for_each xs acc' body) s1).
Proof.
  intros H. rewrite for_each_cons, H.
  unfold result_of, final_state, trace_of.
  destruct (for_each xs acc' body s1) as [[r s2] t2]. reflexivity.
Qed.

Lemma for_each_ok_trace {S E A B} (x : A) (xs : list A) (acc acc' : B)
      (body : B -> A -> M S E B) (s s1 : S) (t1 : list E) :
  body acc x s = (Ok acc', s1, t1) ->
  trace_of (for_each (x :: xs) acc body) s = t1 ++ trace_of (for_each xs acc' body) s1.
Proof. intros H. unfold trace_of at 1. rewrite (for_each_ok _ _ _ _ _ H). reflexivity. Qed.

Lemma for_each_ok_result {S E A B} (x : A) (xs : list A) (acc acc' : B)
      (body : B -> A -> M S E B) (s s1 : S) (t1 : list E) :
  body acc x s = (Ok acc', s1, t1) ->
  result_of (for_each (x :: xs) acc body) s = result_of (for_each xs acc' body) s1.
Proof. intros H. unfold result_of at 1. rewrite (for_each_ok _ _ _ _ _ H). reflexivity. Qed.

Lemma for_each_ok_state {S E A B} (x : A) (xs : list A) (acc acc' : B)
      (body : B -> A -> M S E B) (s s1 : S) (t1 : list E) :
  body acc x s = (Ok acc', s1, t1) ->
  final_state (for_each (x :: xs) acc body) s = final_state (for_each xs acc' body) s1.
Proof. intros H. unfold final_state at 1. rewrite (for_each_ok _ _ _ _ _ H). reflexivity. Qed.

Lemma run_eta {S E A} (m : M S E A) (s : S) :
  m s = (result_of m s, final_state m s, trace_of m s).
Proof. unfold result_of, final_state, trace_of. destruct (m s) as [[r s1] t]. reflexivity. Qed.

Section Calls.
Context `{SC : Scalar} {RT : TrainingRuntime} {ML : MetricLibrary}.

Lemma model_call_ok s x s1 loss logits :
  module_call s x = (s1, Returned (loss, logits)) ->
  model_call x s =
  (Ok (loss, logits), s1, [ok_event (CModelCall x) (RForward loss logits)]).
Proof. intros H. unfold model_call, perform, on_state. rewrite H. reflexivity. Qed.

Lemma model_call_failed s x s1 e :
  module_call s x = (s1, Failed e) ->
  model_call x s = (Raise (RuntimeFailure e), s1, [failed_event (CModelCall x) e]).
Proof. intros H. unfold model_call, perform, on_state. rewrite H. reflexivity. Qed.

Lemma optimizer_step_ok s s1 u :
  optimizer_step s = (s1, Returned u) ->
  optimizer_step_call s = (Ok u, s1, [ok_event COptimizerStep RNone]).
Proof. intros H. unfold optimizer_step_call, perform, on_state. rewrite H. reflexivity. Qed.

Lemma optimizer_step_failed s s1 e :
  optimizer_step s = (s1, Failed e) ->
  optimizer_step_call s = (Raise (RuntimeFailure e), s1, [failed_event COptimizerStep e]).
Proof. intros H. unfold optimizer_step_call, perform, on_state. rewrite H. reflexivity. Qed.

Lemma reset_grad_ok s s1 u :
  module_reset_grad s = (s1, Returned u) ->
  model_reset_grad s = (Ok u, s1, [ok_event CResetGrad RNone]).
Proof. intros H. unfold model_reset_grad, perform, on_state. rewrite H. reflexivity. Qed.

Lemma reset_grad_failed s s1 e :
  module_reset_grad s = (s1, Failed e) ->
  model_reset_grad s = (Raise (RuntimeFailure e), s1, [failed_event CResetGrad e]).
Proof. intros H. unfold model_reset_grad, perform, on_state. rewrite H. reflexivity. Qed.

Lemma add_batch_ok s m refs preds m' :
  metric_add_batch m refs preds = Ok m' ->
  add_batch_call m refs preds s = (Ok m', s, [ok_event (CAddBatch refs preds) RNone]).
Proof. intros H. unfold add_batch_call, perform, stateless. rewrite H. reflexivity. Qed.

Lemma add_batch_raise s m refs preds e :
  metric_add_batch m refs preds = Raise e ->
  add_batch_call m refs preds s = (Raise e, s, [Event (CAddBatch refs preds) (Raise e)]).
Proof. intros H. unfold add_batch_call, perform, stateless. rewrite H. reflexivity. Qed.

End Calls.

Create HintDb run.

#[local] Hint Resolve model_call_ok model_call_failed optimizer_step_ok
  optimizer_step_failed reset_grad_ok reset_grad_failed add_batch_ok
  add_batch_raise : run.

(** One step of a run: the next call either raises, and so does the
    cell, or returns, and the cell goes on. *)
Ltac run_raise := eapply bind_raise; solve [reflexivity | eauto with run].
Ltac run_ok :=
  eapply bind_ok; [solve [reflexivity | eauto with run] | cbn beta iota | reflexivity].

Section Iterations.
Context `{SC : Scalar} {RT : TrainingRuntime} {ML : MetricLibrary}.

(** The five ways one iteration of the loop of [train] can go. *)
Lemma train_step_cases (losses : list scalar) (i : nat)
      (data : ndarray scalar) (target : ndarray Z) (s : rt_state) :
  let run := train_step losses (i, (data, target)) s in
  (exists e, make_forward_inputs data target = Raise e /\ run = (Raise e, s, []))
  \/ (exists x s1 e,
        make_forward_inputs data target = Ok x /\
        module_call s x = (s1, Failed e) /\
        run = (Raise (RuntimeFailure e), s1, [failed_event (CModelCall x) e]))
  \/ (exists x s1 loss logits s2 e,
        make_forward_inputs data target = Ok x /\
        module_call s x = (s1, Returned (loss, logits)) /\
        optimizer_step s1 = (s2, Failed e) /\
        run = (Raise (RuntimeFailure e), s2,
               [ok_event (CModelCall x) (RForward loss logits);
                failed_event COptimizerStep e]))
  \/ (exists x s1 loss logits s2 s3 e,
        make_forward_inputs data target = Ok x /\
        module_call s x = (s1, Returned (loss, logits)) /\
        optimizer_step s1 = (s2, Returned tt) /\
        module_reset_grad s2 = (s3, Failed e) /\
        run = (Raise (RuntimeFailure e), s3,
               [ok_event (CModelCall x) (RForward loss logits);
                ok_event COptimizerStep RNone;
                failed_event CResetGrad e]))
  \/ (exists x s1 loss logits s2 s3,
        make_forward_inputs data target = Ok x /\
        module_call s x = (s1, Returned (loss, logits)) /\
        optimizer_step s1 = (s2, Returned tt) /\
        module_reset_grad s2 = (s3, Returned tt) /\
        run = (Ok (losses ++ [loss]), s3,
               [ok_event (CModelCall x) (RForward loss logits);
                ok_event COptimizerStep RNone;
                ok_event CResetGrad RNone])).
Proof.
  cbv zeta. unfold train_step.
  destruct (make_forward_inputs data target) as [x | e] eqn:Hx;
    [right | left; exists e; split; reflexivity].
  destruct (module_call s x) as [s1 [[loss logits] | e]] eqn:Hcall;
    [right | left; exists x, s1, e; repeat split; auto; run_ok; run_raise].
  destruct (optimizer_step s1) as [s2 [[] | e]] eqn:Hstep;
    [right | left; exists x, s1, loss, logits, s2, e; repeat split; auto;
             run_ok; run_ok; run_raise].
  destruct (module_reset_grad s2) as [s3 [[] | e]] eqn:Hreset;
    [right; exists x, s1, loss, logits, s2, s3
    | left; exists x, s1, loss, logits, s2, s3, e]; repeat split; auto.
  - run_ok. run_ok. run_ok. run_ok. reflexivity.
  - run_ok. run_ok. run_ok. run_raise.
Qed.

End Iterations.

(** ** The order of the entry points in [train] *)

(** Words over forward, step, reset: what a prefix of whole iterations
    looks like around any of its letters. *)
Lemma cycles_predecessor (n : nat) :
  forall pre k post,
    batch_cycles n = pre ++ k :: post ->
    match k with
    | Forward => pre = [] \/ exists p, pre = p ++ [Reset]
    | Step => exists p, pre = p ++ [Forward]
    | Reset => exists p, pre = p ++ [Step]
    end.
Proof.
  induction n as [| n IH]; intros pre k post H.
  - destruct pre; discriminate.
  - cbn [batch_cycles] in H.
    destruct pre as [| a [| b [| c pre]]]; cbn in H; inversion H; subst.
    + left. reflexivity.
    + exists []. reflexivity.
    + exists [Forward]. reflexivity.
    + match goal with Hc : batch_cycles n = _ |- _ => specialize (IH _ _ _ Hc) end.
      destruct k.
      * right. destruct IH as [-> | [p ->]].
        -- exists [Forward; Step]. reflexivity.
        -- exists (Forward :: Step :: Reset :: p). reflexivity.
      * destruct IH as [p ->]. exists (Forward :: Step :: Reset :: p). reflexivity.
      * destruct IH as [p ->]. exists (Forward :: Step :: Reset :: p). reflexivity.
Qed.

Lemma cycles_between_steps (n : nat) :
  forall pre mid post,
    batch_cycles n = pre ++ Step :: mid ++ Step :: post ->
    ~ In Step mid ->
    mid = [Reset; Forward].
Proof.
  induction n as [| n IH]; intros pre mid post H Hmid.
  - destruct pre; discriminate.
  - cbn [batch_cycles] in H.
    destruct pre as [| a [| b [| c pre]]]; cbn in H; inversion H; subst; clear H.
    + destruct mid as [| m1 mid]; [discriminate |].
      match goal with Hc : _ = _ ++ _ |- _ => cbn in Hc; inversion Hc; subst; clear Hc end.
      destruct n as [| n]; [destruct mid; discriminate |].
      destruct mid as [| m2 mid]; [discriminate |].
      match goal with Hc : _ = _ ++ _ |- _ => cbn in Hc; inversion Hc; subst; clear Hc end.
      destruct mid as [| m3 mid]; [reflexivity |].
      match goal with Hc : _ = _ ++ _ |- _ => cbn in Hc; inversion Hc; subst; clear Hc end.
      exfalso. apply Hmid. right. right. left. reflexivity.
    + match goal with Hc : batch_cycles n = _ |- _ => apply (IH _ _ _ Hc Hmid) end.
Qed.

Lemma is_prefix_nil {A} (v : list A) : is_prefix [] v.
Proof. exists v. reflexivity. Qed.

Lemma is_prefix_refl {A} (v : list A) : is_prefix v v.
Proof. exists []. symmetry. apply app_nil_r. Qed.

Lemma is_prefix_cons {A} (a : A) (u v : list A) :
  is_prefix u v -> is_prefix (a :: u) (a :: v).
Proof. intros [w ->]. exists w. reflexivity. Qed.

#[local] Hint Resolve is_prefix_nil is_prefix_refl is_prefix_cons : run.

Section TrainOrder.
Context `{SC : Scalar} {RT : TrainingRuntime} {ML : MetricLibrary}.

Lemma runtime_steps_app (t1 t2 : list event) :
  runtime_steps (t1 ++ t2) = runtime_steps t1 ++ runtime_steps t2.
Proof. apply flat_map_app. Qed.

Lemma train_loop_steps (xs : list batch) :
  forall (i : nat) (acc : list scalar) (s : rt_state),
    is_prefix (runtime_steps (trace_of (for_each (enumerate_from i xs) acc train_step) s))
              (batch_cycles (length xs)) /\
    (forall a, result_of (for_each (enumerate_from i xs) acc train_step) s = Ok a ->
               runtime_steps (trace_of (for_each (enumerate_from i xs) acc train_step) s)
               = batch_cycles (length xs)).
Proof.
  induction xs as [| [data target] xs IH]; intros i acc s.
  - split; [apply is_prefix_nil | reflexivity].
  - cbn [enumerate_from length batch_cycles].
    pose proof (train_step_cases acc i data target s) as Hcases.
    cbv zeta in Hcases.
    destruct Hcases as
        [(e & _ & Hrun)
        | [(x & s1 & e & _ & _ & Hrun)
          | [(x & s1 & loss & logits & s2 & e & _ & _ & _ & Hrun)
            | [(x & s1 & loss & logits & s2 & s3 & e & _ & _ & _ & _ & Hrun)
              | (x & s1 & loss & logits & s2 & s3 & _ & _ & _ & _ & Hrun)]]]].
    1-4: unfold trace_of, result_of;
         rewrite (for_each_raise _ _ _ _ _ Hrun); cbn;
         split; [auto 6 with run | discriminate].
    rewrite (for_each_ok_trace _ _ _ _ _ Hrun), (for_each_ok_result _ _ _ _ _ Hrun).
    destruct (IH (S i) (acc ++ [loss]) s3) as [Hpre Heq].
    rewrite runtime_steps_app.
    split.
    + cbn. do 3 apply is_prefix_cons. exact Hpre.
    + intros a Ha. cbn. do 3 f_equal. exact (Heq a Ha).
Qed.

End TrainOrder.


Section WholeCells.
Context `{SC : Scalar} {RT : TrainingRuntime} {ML : MetricLibrary}.
Variable ld : loaders.

(** A run of [train]: the mode toggle, the loop, and the report when
    the mean can be taken. *)
Lemma train_run (epoch : Z) (s : rt_state) :
  train ld epoch s =
  let s0 := module_train s in
  let body := ok_event CModelTrain RNone :: trace_of (train_loop ld) s0 in
  match result_of (train_loop ld) s0 with
  | Raise e => (Raise e, final_state (train_loop ld) s0, body)
  | Ok losses =>
      match mean_loss losses with
      | Raise e => (Raise e, final_state (train_loop ld) s0, body)
      | Ok v =>
          (Ok tt, final_state (train_loop ld) s0,
           body ++ [ok_event (CPrint (TrainReport (epoch + 1) v)) RNone])
      end
  end.
Proof.
  cbv zeta. unfold train.
  rewrite bind_run. cbn [model_train perform].
  rewrite bind_run, (run_eta (train_loop ld) (module_train s)).
  destruct (result_of (train_loop ld) (module_train s)) as [losses | e]; [| reflexivity].
  rewrite bind_run. cbn [lift].
  destruct (mean_loss losses) as [v | e]; cbn; rewrite ?app_nil_r; reflexivity.
Qed.

(** A run of [test]: the mode toggle, the metric object, the loop, the
    finalisation of the metric and the report. *)
Lemma test_run (epoch : Z) (s : rt_state) :
  test ld epoch s =
  let s0 := module_eval s in
  match evaluate_load "accuracy" with
  | Raise e =>
      (Raise e, s0,
       [ok_event CModelEval RNone; Event (CEvaluateLoad "accuracy") (Raise e)])
  | Ok m =>
      let head := [ok_event CModelEval RNone;
                   ok_event (CEvaluateLoad "accuracy") RNone] in
      let s1 := final_state (test_loop ld m) s0 in
      let body := head ++ trace_of (test_loop ld m) s0 in
      match result_of (test_loop ld m) s0 with
      | Raise e => (Raise e, s1, body)
      | Ok (m', losses) =>
          match metric_compute m' with
          | Raise e => (Raise e, s1, body ++ [Event CCompute (Raise e)])
          | Ok metrics =>
              let body' := body ++ [ok_event CCompute (RMetrics metrics)] in
              match mean_loss losses with
              | Raise e => (Raise e, s1, body')
              | Ok v =>
                  match dict_get metrics "accuracy" with
                  | Raise e => (Raise e, s1, body')
                  | Ok accuracy =>
                      (Ok tt, s1,
                       body' ++ [ok_event (CPrint (TestReport (epoch + 1) v accuracy)) RNone])
                  end
              end
          end
      end
  end.
Proof.
  cbv zeta. unfold test.
  rewrite bind_run. cbn [model_eval perform].
  rewrite bind_run. unfold evaluate_load_call at 1, perform, stateless.
  destruct (evaluate_load "accuracy") as [m | e]; [| reflexivity].
  cbn [outcome_of no_value].
  rewrite bind_run, (run_eta (test_loop ld m) (module_eval s)).
  destruct (result_of (test_loop ld m) (module_eval s)) as [[m' losses] | e];
    [| reflexivity].
  rewrite bind_run. unfold compute_call at 1, perform, stateless.
  destruct (metric_compute m') as [metrics | e]; [| cbn; rewrite <- ?app_assoc; reflexivity].
  rewrite bind_run. cbn [lift outcome_of].
  destruct (mean_loss losses) as [v | e]; [| cbn; rewrite ?app_nil_r, <- ?app_assoc; reflexivity].
  rewrite bind_run.
  destruct (dict_get metrics "accuracy") as [accuracy | e];
    cbn; rewrite ?app_nil_r, <- ?app_assoc; reflexivity.
Qed.

Lemma train_steps_are_loop_steps (epoch : Z) (s : rt_state) :
  runtime_steps (trace_of (train ld epoch) s)
  = runtime_steps (trace_of (train_loop ld) (module_train s)).
Proof.
  unfold trace_of at 1. rewrite train_run. cbv zeta.
  destruct (result_of (train_loop ld) (module_train s)) as [losses | e];
    [destruct (mean_loss losses) as [v | e] |]; cbn [snd]; try reflexivity.
  change (ok_event CModelTrain RNone :: ?t) with ([ok_event CModelTrain RNone] ++ t).
  rewrite !runtime_steps_app. cbn. apply app_nil_r.
Qed.

Lemma train_ok_loop_ok (epoch : Z) (s : rt_state) :
  result_of (train ld epoch) s = Ok tt ->
  exists losses, result_of (train_loop ld) (module_train s) = Ok losses.
Proof.
  unfold result_of at 1. rewrite train_run. cbv zeta.
  destruct (result_of (train_loop ld) (module_train s)) as [losses | e].
  - intros _. exists losses. reflexivity.
  - discriminate.
Qed.

End WholeCells.
(** C1.  Seen through its three runtime entry points, a run of [train],
    whether it completes or is cut short by an exception, is a prefix of
    one forward, step, reset cycle per batch of the loader, and the whole
    of it when the run completes.  So a step is always directly preceded by
    the forward/backward pass of its batch, a reset by the step of its
    batch, a forward pass is either the first call or follows the previous
    batch's reset, and between two consecutive steps there is exactly one
    reset, followed by the next batch's forward pass. *)
Theorem train_entry_point_order `{SC : Scalar} {RT : TrainingRuntime}
        (ld : loaders) (epoch : Z) (s : rt_state) :
  let steps := runtime_steps (trace_of (train ld epoch) s) in
  is_prefix steps (batch_cycles (length (train_loader ld))) /\
  (result_of (train ld epoch) s = Ok tt ->
   steps = batch_cycles (length (train_loader ld))) /\
  (forall pre k post,
      steps = pre ++ k :: post ->
      match k with
      | Forward => pre = [] \/ exists p, pre = p ++ [Reset]
      | Step => exists p, pre = p ++ [Forward]
      | Reset => exists p, pre = p ++ [Step]
      end) /\
  (forall pre mid post,
      steps = pre ++ Step :: mid ++ Step :: post ->
      ~ In Step mid ->
      mid = [Reset; Forward] /\ count_occ step_kind_eq_dec mid Reset = 1).
Proof.
  cbv zeta. rewrite train_steps_are_loop_steps.
  destruct (train_loop_steps (train_loader ld) 0 [] (module_train s)) as [Hpre Heq].
  fold (enumerate (train_loader ld)) in Hpre, Heq. fold (train_loop ld) in Hpre, Heq.
  split; [exact Hpre |].
  split.
  { intros Hok. destruct (train_ok_loop_ok ld epoch s Hok) as [losses Hl].
    exact (Heq losses Hl). }
  destruct Hpre as [w Hw].
  split.
  - intros pre k post Hsplit.
    apply (cycles_predecessor (length (train_loader ld)) pre k (post ++ w)).
    rewrite Hw, Hsplit, <- app_assoc. reflexivity.
  - intros pre mid post Hsplit Hmid.
    assert (Hm : mid = [Reset; Forward]).
    { apply (cycles_between_steps (length (train_loader ld)) pre mid (post ++ w));
        [| exact Hmid].
      rewrite Hw, Hsplit, <- !app_assoc. cbn. rewrite <- app_assoc. reflexivity. }
    subst mid. split; reflexivity.
Qed.

Lemma train_entry_point_order_witness :
  result_of (@train ZScalar Demo.demo_runtime Demo.demo_loaders 0%Z) Demo.demo_state = Ok tt /\
  runtime_steps (trace_of (@train ZScalar Demo.demo_runtime Demo.demo_loaders 0%Z) Demo.demo_state)
  = [Forward; Step; Reset; Forward; Step; Reset].
Proof.
  split; [vm_compute; reflexivity |].
  apply (proj1 (proj2 (@train_entry_point_order ZScalar Demo.demo_runtime
                         Demo.demo_loaders 0%Z Demo.demo_state))).
  vm_compute. reflexivity.
Defined.

(** ** One iteration, read back from its run *)

Section IterationInversion.
Context `{SC : Scalar} {RT : TrainingRuntime} {ML : MetricLibrary}.

(** The five ways one iteration of the loop of [test] can go. *)
Lemma test_step_cases (m : metric) (losses : list scalar) (i : nat)
      (data : ndarray scalar) (target : ndarray Z) (s : rt_state) :
  let run := test_step (m, losses) (i, (data, target)) s in
  (exists e, make_forward_inputs data target = Raise e /\ run = (Raise e, s, []))
  \/ (exists x s1 e,
        make_forward_inputs data target = Ok x /\
        module_call s x = (s1, Failed e) /\
        run = (Raise (RuntimeFailure e), s1, [failed_event (CModelCall x) e]))
  \/ (exists x s1 loss logits e,
        make_forward_inputs data target = Ok x /\
        module_call s x = (s1, Returned (loss, logits)) /\
        get_pred logits = Raise e /\
        run = (Raise e, s1, [ok_event (CModelCall x) (RForward loss logits)]))
  \/ (exists x s1 loss logits preds e,
        make_forward_inputs data target = Ok x /\
        module_call s x = (s1, Returned (loss, logits)) /\
        get_pred logits = Ok preds /\
        metric_add_batch m target preds = Raise e /\
        run = (Raise e, s1,
               [ok_event (CModelCall x) (RForward loss logits);
                Event (CAddBatch target preds) (Raise e)]))
  \/ (exists x s1 loss logits preds m',
        make_forward_inputs data target = Ok x /\
        module_call s x = (s1, Returned (loss, logits)) /\
        get_pred logits = Ok preds /\
        metric_add_batch m target preds = Ok m' /\
        run = (Ok (m', losses ++ [loss]), s1,
               [ok_event (CModelCall x) (RForward loss logits);
                ok_event (CAddBatch target preds) RNone])).
Proof.
  cbv zeta. unfold test_step.
  destruct (make_forward_inputs data target) as [x | e] eqn:Hx;
    [right | left; exists e; split; reflexivity].
  destruct (module_call s x) as [s1 [[loss logits] | e]] eqn:Hcall;
    [right | left; exists x, s1, e; repeat split; auto; run_ok; run_raise].
  destruct (get_pred logits) as [preds | e] eqn:Hpred;
    [right | left; exists x, s1, loss, logits, e; repeat split; auto;
             run_ok; run_ok; rewrite Hpred; run_raise].
  destruct (metric_add_batch m target preds) as [m' | e] eqn:Hadd;
    [right; exists x, s1, loss, logits, preds, m'
    | left; exists x, s1, loss, logits, preds, e]; repeat split; auto.
  - run_ok. run_ok. rewrite Hpred. run_ok. run_ok. reflexivity.
  - run_ok. run_ok. rewrite Hpred. run_ok. run_raise.
Qed.

(** Induction over the iterations of a loop: a property of runs holds of
    every run of [for_each] when it holds of the empty loop, of a loop
    whose first iteration raises, and carries over an iteration that
    completes. *)
Lemma for_each_run_ind {A B} (body : B -> A -> NB B)
      (P : list A -> B -> rt_state -> result B * rt_state * list event -> Prop) :
  (forall acc s, P [] acc s (Ok acc, s, [])) ->
  (forall x xs acc s e s1 t1,
      body acc x s = (Raise e, s1, t1) ->
      P (x :: xs) acc s (Raise e, s1, t1)) ->
  (forall x xs acc s acc' s1 t1 r s2 t2,
      body acc x s = (Ok acc', s1, t1) ->
      for_each xs acc' body s1 = (r, s2, t2) ->
      P xs acc' s1 (r, s2, t2) ->
      P (x :: xs) acc s (r, s2, t1 ++ t2)) ->
  forall xs acc s, P xs acc s (for_each xs acc body s).
Proof.
  intros Hnil Hraise Hok. induction xs as [| x xs IH]; intros acc s.
  - apply Hnil.
  - rewrite for_each_cons.
    destruct (body acc x s) as [[[acc' | e] s1] t1] eqn:Hbody.
    + destruct (for_each xs acc' body s1) as [[r s2] t2] eqn:Hrest.
      apply (Hok _ _ _ _ _ _ _ _ _ _ Hbody Hrest).
      rewrite <- Hrest. apply IH.
    + apply (Hraise _ _ _ _ _ _ _ Hbody).
Qed.

(** What the trace of one iteration of [train] is made of. *)
Lemma train_step_trace (losses : list scalar) (item : nat * batch) (s : rt_state) :
  forall r s1 t1,
    train_step losses item s = (r, s1, t1) ->
    match r with
    | Ok losses' =>
        exists x loss logits,
          make_forward_inputs (fst (snd item)) (snd (snd item)) = Ok x /\
          losses' = losses ++ [loss] /\
          t1 = [ok_event (CModelCall x) (RForward loss logits);
                ok_event COptimizerStep RNone;
                ok_event CResetGrad RNone]
    | Raise e =>
        t1 = [] \/
        exists x,
          make_forward_inputs (fst (snd item)) (snd (snd item)) = Ok x /\
          exists re, e = RuntimeFailure re /\
            (t1 = [failed_event (CModelCall x) re] \/
             exists loss logits,
               t1 = [ok_event (CModelCall x) (RForward loss logits);
                     failed_event COptimizerStep re] \/
               t1 = [ok_event (CModelCall x) (RForward loss logits);
                     ok_event COptimizerStep RNone;
                     failed_event CResetGrad re])
    end.
Proof.
  destruct item as [i [data target]]. intros r s1 t1 Hrun.
  pose proof (train_step_cases losses i data target s) as Hcases.
  cbv zeta in Hcases. cbn [fst snd].
  destruct Hcases as
      [(e & _ & Heq)
      | [(x & s1' & e & Hx & _ & Heq)
        | [(x & s1' & loss & logits & s2 & e & Hx & _ & _ & Heq)
          | [(x & s1' & loss & logits & s2 & s3 & e & Hx & _ & _ & _ & Heq)
            | (x & s1' & loss & logits & s2 & s3 & Hx & _ & _ & _ & Heq)]]]];
    pose proof (eq_trans (eq_sym Hrun) Heq) as Heq'; inversion Heq'; subst; clear Heq'.
  - left. reflexivity.
  - right. exists x. split; [assumption |]. exists e. split; [reflexivity |].
    left. reflexivity.
  - right. exists x. split; [assumption |]. exists e. split; [reflexivity |].
    right. exists loss, logits. left. reflexivity.
  - right. exists x. split; [assumption |]. exists e. split; [reflexivity |].
    right. exists loss, logits. right. reflexivity.
  - exists x, loss, logits. repeat split; assumption.
Qed.

(** What the trace of one iteration of [test] is made of. *)
Lemma test_step_trace (acc : metric * list scalar) (item : nat * batch) (s : rt_state) :
  forall r s1 t1,
    test_step acc item s = (r, s1, t1) ->
    exists x,
      (t1 <> [] -> make_forward_inputs (fst (snd item)) (snd (snd item)) = Ok x) /\
      match r with
      | Ok acc' =>
          exists loss logits preds,
            make_forward_inputs (fst (snd item)) (snd (snd item)) = Ok x /\
            module_call s x = (s1, Returned (loss, logits)) /\
            get_pred logits = Ok preds /\
            metric_add_batch (fst acc) (snd (snd item)) preds = Ok (fst acc') /\
            snd acc' = snd acc ++ [loss] /\
            t1 = [ok_event (CModelCall x) (RForward loss logits);
                  ok_event (CAddBatch (snd (snd item)) preds) RNone]
      | Raise e =>
          (t1 = [] /\ s1 = s) \/
          (exists re, module_call s x = (s1, Failed re) /\
                      e = RuntimeFailure re /\
                      t1 = [failed_event (CModelCall x) re]) \/
          (exists loss logits,
              module_call s x = (s1, Returned (loss, logits)) /\
              ((get_pred logits = Raise e /\
                t1 = [ok_event (CModelCall x) (RForward loss logits)]) \/
               (exists preds,
                   get_pred logits = Ok preds /\
                   t1 = [ok_event (CModelCall x) (RForward loss logits);
                         Event (CAddBatch (snd (snd item)) preds) (Raise e)])))
      end.
Proof.
  destruct acc as [m losses]. destruct item as [i [data target]].
  intros r s1 t1 Hrun.
  pose proof (test_step_cases m losses i data target s) as Hcases.
  cbv zeta in Hcases. cbn [fst snd].
  destruct Hcases as
      [(e & Hx & Heq)
      | [(x & s1' & e & Hx & Hc & Heq)
        | [(x & s1' & loss & logits & e & Hx & Hc & Hp & Heq)
          | [(x & s1' & loss & logits & preds & e & Hx & Hc & Hp & Ha & Heq)
            | (x & s1' & loss & logits & preds & m' & Hx & Hc & Hp & Ha & Heq)]]]];
    pose proof (eq_trans (eq_sym Hrun) Heq) as Heq'; inversion Heq'; subst; clear Heq'.
  - exists (data, target). split; [congruence |]. left. split; reflexivity.
  - exists x. split; [intros _; assumption |].
    right. left. exists e. repeat split; assumption.
  - exists x. split; [intros _; assumption |].
    right. right. exists loss, logits. split; [assumption |].
    left. split; [assumption | reflexivity].
  - exists x. split; [intros _; assumption |].
    right. right. exists loss, logits. split; [assumption |].
    right. exists preds. split; [assumption | reflexivity].
  - exists x. split; [intros _; assumption |].
    exists loss, logits, preds. repeat split; assumption.
Qed.

End IterationInversion.

(** ** The loss an epoch reports *)

Section MeanLoss.
Context `{SC : Scalar}.

Lemma fold_py_add_num (l : list scalar) :
  forall a, fold_left py_add (map PyNum l) (PyNum a) = PyNum (fold_left sc_add l a).
Proof. induction l as [| x l IH]; intros a; cbn; [reflexivity | apply IH]. Qed.

(** Python's [sum] and the sum in insertion order agree on a list that
    is not empty. *)
Lemma py_sum_cons (x : scalar) (l : list scalar) :
  py_sum (x :: l) = PyNum (sum_in_order (x :: l)).
Proof. unfold py_sum, sum_in_order. cbn. apply fold_py_add_num. Qed.

Lemma mean_loss_nil : mean_loss [] = Raise ZeroDivisionError.
Proof. reflexivity. Qed.

Lemma mean_loss_cons (x : scalar) (l : list scalar) :
  mean_loss (x :: l) = Ok (PyNum (arith_mean (x :: l))).
Proof. unfold mean_loss. rewrite py_sum_cons. reflexivity. Qed.

Lemma mean_loss_ok (l : list scalar) (v : pyval) :
  mean_loss l = Ok v -> l <> [] /\ v = PyNum (arith_mean l).
Proof.
  destruct l as [| x l].
  - rewrite mean_loss_nil. discriminate.
  - rewrite mean_loss_cons. intros H. injection H as <-.
    split; [discriminate | reflexivity].
Qed.

Lemma losses_of_app (t1 t2 : list event) :
  losses_of (t1 ++ t2) = losses_of t1 ++ losses_of t2.
Proof. apply flat_map_app. Qed.





End MeanLoss.

Section LoopLosses.
Context `{SC : Scalar} {RT : TrainingRuntime} {ML : MetricLibrary}.

Lemma enumerate_from_length {A} (xs : list A) :
  forall i, length (enumerate_from i xs) = length xs.
Proof. induction xs as [| x xs IH]; intros i; cbn; [| rewrite IH]; reflexivity. Qed.

(** The loop of [train] prints nothing and collects, in order, the
    losses the module returned. *)
Lemma train_loop_losses (items : list (nat * batch)) (acc : list scalar) (s : rt_state) :
  quiet (trace_of (for_each items acc train_step) s) /\
  (forall a, result_of (for_each items acc train_step) s = Ok a ->
             a = acc ++ losses_of (trace_of (for_each items acc train_step) s) /\
             length (losses_of (trace_of (for_each items acc train_step) s))
             = length items).
Proof.
  unfold trace_of, result_of.
  apply (for_each_run_ind train_step
           (fun xs acc _ run =>
              quiet (snd run) /\
              (forall a, fst (fst run) = Ok a ->
                         a = acc ++ losses_of (snd run) /\
                         length (losses_of (snd run)) = length xs))).
  - intros acc0 s0. cbn. split; [constructor |].
    intros a H. injection H as <-. rewrite app_nil_r. split; reflexivity.
  - intros x xs acc0 s0 e s1 t1 Hbody. cbn.
    split; [| discriminate].
    apply train_step_trace in Hbody.
    destruct Hbody as [-> | (x0 & _ & re & _ & [-> | (loss & logits & [-> | ->])])];
      repeat constructor.
  - intros x xs acc0 s0 acc' s1 t1 r s2 t2 Hbody _ [Hq Hl]. cbn in *.
    apply train_step_trace in Hbody.
    destruct Hbody as (x0 & loss & logits & _ & -> & ->).
    split; [repeat constructor; exact Hq |].
    intros a Ha. destruct (Hl a Ha) as [-> Hlen].
    cbn. rewrite <- app_assoc. split; [reflexivity |].
    f_equal. exact Hlen.
Qed.

(** So does the loop of [test]. *)
Lemma test_loop_losses (items : list (nat * batch)) (acc : metric * list scalar)
      (s : rt_state) :
  quiet (trace_of (for_each items acc test_step) s) /\
  (forall a, result_of (for_each items acc test_step) s = Ok a ->
             snd a = snd acc ++ losses_of (trace_of (for_each items acc test_step) s) /\
             length (losses_of (trace_of (for_each items acc test_step) s))
             = length items).
Proof.
  unfold trace_of, result_of.
  apply (for_each_run_ind test_step
           (fun xs acc _ run =>
              quiet (snd run) /\
              (forall a, fst (fst run) = Ok a ->
                         snd a = snd acc ++ losses_of (snd run) /\
                         length (losses_of (snd run)) = length xs))).
  - intros acc0 s0. cbn. split; [constructor |].
    intros a H. injection H as <-. rewrite app_nil_r. split; reflexivity.
  - intros x xs acc0 s0 e s1 t1 Hbody. cbn.
    split; [| discriminate].
    apply test_step_trace in Hbody.
    destruct Hbody as
        (x0 & _ & [[-> _] | [(re & _ & _ & ->)
                            | (loss & logits & _ & [[_ ->] | (preds & _ & ->)])]]);
      repeat constructor.
  - intros x xs acc0 s0 acc' s1 t1 r s2 t2 Hbody _ [Hq Hl]. cbn in *.
    apply test_step_trace in Hbody.
    destruct Hbody as (x0 & _ & loss & logits & preds & _ & _ & _ & _ & Hacc & ->).
    split; [repeat constructor; exact Hq |].
    intros a Ha. destruct (Hl a Ha) as [-> Hlen].
    rewrite Hacc. cbn. rewrite <- app_assoc. split; [reflexivity |].
    f_equal. exact Hlen.
Qed.

End LoopLosses.

Section EpochReports.
Context `{SC : Scalar} {RT : TrainingRuntime} {ML : MetricLibrary}.
Variable ld : loaders.



(** A run of [train] either stops without a report, or ends with the one
    report of the epoch, which carries the mean of the losses of the
    epoch's batches. *)
Lemma train_trace_shape (epoch : Z) (s : rt_state) :
  (result_of (train ld epoch) s <> Ok tt /\ quiet (trace_of (train ld epoch) s)) \/
  (result_of (train ld epoch) s = Ok tt /\
   exists body,
     quiet body /\
     trace_of (train ld epoch) s =
     body ++ [ok_event (CPrint (TrainReport (epoch + 1)
                                  (PyNum (arith_mean (losses_of body))))) RNone] /\
     length (losses_of body) = length (train_loader ld) /\
     losses_of body <> []).
Proof.
  unfold result_of at 1 2, trace_of at 1 2. rewrite train_run. cbv zeta.
  destruct (train_loop_losses (enumerate (train_loader ld)) [] (module_train s))
    as [Hq Hl].
  fold (train_loop ld) in Hq, Hl.
  assert (Hbody : quiet (ok_event CModelTrain RNone :: trace_of (train_loop ld) (module_train s)))
    by (constructor; [reflexivity | exact Hq]).
  destruct (result_of (train_loop ld) (module_train s)) as [losses | e];
    [| left; split; [discriminate | exact Hbody]].
  destruct (Hl losses eq_refl) as [Hlosses Hlen].
  destruct (mean_loss losses) as [v | e] eqn:Hmean;
    [| left; split; [discriminate | exact Hbody]].
  right. split; [reflexivity |].
  apply mean_loss_ok in Hmean. destruct Hmean as [Hne ->].
  exists (ok_event CModelTrain RNone :: trace_of (train_loop ld) (module_train s)).
  cbn [fst snd] in *.
  change (losses_of (ok_event CModelTrain RNone :: ?t)) with (losses_of t).
  cbn [app] in Hlosses. rewrite <- Hlosses.
  split; [exact Hbody |]. split; [reflexivity |].
  split; [| exact Hne].
  rewrite Hlosses, Hlen. unfold enumerate. apply enumerate_from_length.
Qed.

(** The same for [test], whose report also carries the accuracy. *)
Lemma test_trace_shape (epoch : Z) (s : rt_state) :
  (result_of (test ld epoch) s <> Ok tt /\ quiet (trace_of (test ld epoch) s)) \/
  (result_of (test ld epoch) s = Ok tt /\
   exists body accuracy,
     quiet body /\
     trace_of (test ld epoch) s =
     body ++ [ok_event (CPrint (TestReport (epoch + 1)
                                  (PyNum (arith_mean (losses_of body))) accuracy)) RNone] /\
     length (losses_of body) = length (train_loader ld) /\
     losses_of body <> []).
Proof.
  unfold result_of at 1 2, trace_of at 1 2. rewrite test_run. cbv zeta.
  destruct (evaluate_load "accuracy") as [m | e];
    [| left; split; [discriminate | repeat constructor]].
  destruct (test_loop_losses (enumerate (train_loader ld)) (m, []) (module_eval s))
    as [Hq Hl].
  fold (test_loop ld m) in Hq, Hl.
  set (head := [ok_event CModelEval RNone; ok_event (CEvaluateLoad "accuracy") RNone]).
  assert (Hbody : quiet (head ++ trace_of (test_loop ld m) (module_eval s)))
    by (repeat constructor; exact Hq).
  destruct (result_of (test_loop ld m) (module_eval s)) as [[m' losses] | e];
    [| left; split; [discriminate | exact Hbody]].
  destruct (Hl (m', losses) eq_refl) as [Hlosses Hlen].
  cbn [fst snd] in *.
  destruct (metric_compute m') as [metrics | e];
    [| left; split; [discriminate |];
       apply Forall_app; split; [exact Hbody | repeat constructor]].
  assert (Hbody' : quiet ((head ++ trace_of (test_loop ld m) (module_eval s))
                            ++ [ok_event CCompute (RMetrics metrics)]))
    by (apply Forall_app; split; [exact Hbody | repeat constructor]).
  destruct (mean_loss losses) as [v | e] eqn:Hmean;
    [| left; split; [discriminate | exact Hbody']].
  destruct (dict_get metrics "accuracy") as [accuracy | e];
    [| left; split; [discriminate | exact Hbody']].
  right. split; [reflexivity |].
  apply mean_loss_ok in Hmean. destruct Hmean as [Hne ->].
  exists ((head ++ trace_of (test_loop ld m) (module_eval s))
            ++ [ok_event CCompute (RMetrics metrics)]), accuracy.
  assert (Hsame : losses_of ((head ++ trace_of (test_loop ld m) (module_eval s))
                               ++ [ok_event CCompute (RMetrics metrics)]) = losses).
  { rewrite !losses_of_app. cbn. rewrite app_nil_r. symmetry. exact Hlosses. }
  rewrite Hsame.
  split; [exact Hbody' |]. split; [reflexivity |].
  split; [| exact Hne].
  cbn [app] in Hlosses. rewrite Hlosses, Hlen. unfold enumerate. apply enumerate_from_length.
Qed.

End EpochReports.

Lemma bind_trace {S E A B} (m : M S E A) (k : A -> M S E B) (s : S) :
  trace_of (bind m k) s =
  trace_of m s ++ match result_of m s with
                  | Ok a => trace_of (k a) (final_state m s)
                  | Raise _ => []
                  end.
Proof.
  unfold trace_of, result_of, final_state. rewrite bind_run.
  destruct (m s) as [[[a | e] s1] t1]; cbn.
  - destruct (k a s1) as [[r s2] t2]. reflexivity.
  - symmetry. apply app_nil_r.
Qed.

Lemma bind_result {S E A B} (m : M S E A) (k : A -> M S E B) (s : S) :
  result_of (bind m k) s =
  match result_of m s with
  | Ok a => result_of (k a) (final_state m s)
  | Raise e => Raise e
  end.
Proof.
  unfold result_of, final_state. rewrite bind_run.
  destruct (m s) as [[[a | e] s1] t1]; cbn.
  - destruct (k a s1) as [[r s2] t2]. reflexivity.
  - reflexivity.
Qed.

Lemma bind_state {S E A B} (m : M S E A) (k : A -> M S E B) (s : S) :
  final_state (bind m k) s =
  match result_of m s with
  | Ok a => final_state (k a) (final_state m s)
  | Raise e => final_state m s
  end.
Proof.
  unfold result_of, final_state. rewrite bind_run.
  destruct (m s) as [[[a | e] s1] t1]; cbn.
  - destruct (k a s1) as [[r s2] t2]. reflexivity.
  - reflexivity.
Qed.

Section EpochLoopReports.
Context `{SC : Scalar} {RT : TrainingRuntime} {ML : MetricLibrary}.
Variable ld : loaders.







End EpochLoopReports.



(** ** Errors of the collaborators *)

Section FailStop.
Context `{SC : Scalar} {RT : TrainingRuntime} {ML : MetricLibrary}.

Lemma fails_last_nil {A} (r : result A) : fails_last r [].
Proof. intros pre e post x H. destruct pre; discriminate. Qed.

Lemma fail_stop_ret {A} (a : A) : fail_stop (ret (S := rt_state) a).
Proof. intros s. apply fails_last_nil. Qed.

Lemma fail_stop_lift {A} (r : result A) : fail_stop (lift (S := rt_state) r).
Proof. intros s. apply fails_last_nil. Qed.

Lemma fail_stop_perform {A} (c : call) (rv : A -> retval)
      (f : rt_state -> rt_state * result A) :
  fail_stop (perform c rv f).
Proof.
  intros s pre e post x Hsplit Hout.
  unfold trace_of, result_of, perform in *.
  destruct (f s) as [s1 r]. cbn in *.
  destruct pre as [| e0 pre]; [| destruct pre; discriminate].
  injection Hsplit as <- <-. cbn in Hout.
  split; [reflexivity |].
  destruct r as [a | e0]; cbn in Hout; [discriminate | congruence].
Qed.

(** Where a letter of a concatenation sits: in the first part or in the
    second. *)
Lemma split_in_app {A} (t1 t2 pre post : list A) (e : A) :
  t1 ++ t2 = pre ++ e :: post ->
  (exists post1, t1 = pre ++ e :: post1 /\ post = post1 ++ t2) \/
  (exists pre2, pre = t1 ++ pre2 /\ t2 = pre2 ++ e :: post).
Proof.
  intros H. apply app_eq_app in H. destruct H as [l [[-> H] | [-> H]]].
  - destruct l as [| a l]; cbn in H.
    + right. exists []. rewrite !app_nil_r. split; [reflexivity | symmetry; exact H].
    + injection H as <- ->. left. exists l. split; reflexivity.
  - right. exists l. split; [reflexivity | exact H].
Qed.

Lemma fail_stop_bind {A B} (m : NB A) (k : A -> NB B) :
  fail_stop m -> (forall a, fail_stop (k a)) -> fail_stop (bind m k).
Proof.
  intros Hm Hk s pre e post x Hsplit Hout.
  rewrite bind_trace in Hsplit. rewrite bind_result.
  specialize (Hm s).
  destruct (result_of m s) as [a | e0] eqn:Hr.
  - apply split_in_app in Hsplit.
    destruct Hsplit as [(post1 & H1 & ->) | (pre2 & -> & H2)].
    + destruct (Hm _ _ _ _ H1 Hout) as [_ Habs]. discriminate.
    + exact (Hk a _ _ _ _ _ H2 Hout).
  - rewrite app_nil_r in Hsplit.
    destruct (Hm _ _ _ _ Hsplit Hout) as [Hpost Heq].
    split; [exact Hpost | congruence].
Qed.

Lemma fail_stop_for_each {A B} (body : B -> A -> NB B) (xs : list A) :
  (forall acc x, fail_stop (body acc x)) ->
  forall acc, fail_stop (for_each xs acc body).
Proof.
  intros Hbody. induction xs as [| x xs IH]; intros acc.
  - apply fail_stop_ret.
  - cbn [for_each]. apply fail_stop_bind; [apply Hbody | exact IH].
Qed.

End FailStop.

#[local] Hint Resolve fail_stop_ret fail_stop_lift fail_stop_perform
  fail_stop_bind fail_stop_for_each : run.

Section CellsFailStop.
Context `{SC : Scalar} {RT : TrainingRuntime} {ML : MetricLibrary}.
Variable ld : loaders.

Lemma train_step_fail_stop acc item : fail_stop (train_step acc item).
Proof.
  destruct item as [i [data target]]. unfold train_step.
  apply fail_stop_bind; [apply fail_stop_lift |]. intros x.
  apply fail_stop_bind; [apply fail_stop_perform |]. intros [loss logits].
  apply fail_stop_bind; [apply fail_stop_perform |]. intros _.
  apply fail_stop_bind; [apply fail_stop_perform |]. intros _.
  apply fail_stop_ret.
Qed.

Lemma test_step_fail_stop acc item : fail_stop (test_step acc item).
Proof.
  destruct acc as [m losses]. destruct item as [i [data target]]. unfold test_step.
  apply fail_stop_bind; [apply fail_stop_lift |]. intros x.
  apply fail_stop_bind; [apply fail_stop_perform |]. intros [loss logits].
  apply fail_stop_bind; [apply fail_stop_lift |]. intros preds.
  apply fail_stop_bind; [apply fail_stop_perform |]. intros m'.
  apply fail_stop_ret.
Qed.

Lemma train_fail_stop epoch : fail_stop (train ld epoch).
Proof.
  unfold train, train_loop.
  apply fail_stop_bind; [apply fail_stop_perform |]. intros _.
  apply fail_stop_bind; [apply fail_stop_for_each, train_step_fail_stop |]. intros losses.
  apply fail_stop_bind; [apply fail_stop_lift |]. intros loss.
  apply fail_stop_perform.
Qed.

Lemma test_fail_stop epoch : fail_stop (test ld epoch).
Proof.
  unfold test, test_loop.
  apply fail_stop_bind; [apply fail_stop_perform |]. intros _.
  apply fail_stop_bind; [apply fail_stop_perform |]. intros m.
  apply fail_stop_bind; [apply fail_stop_for_each, test_step_fail_stop |].
  intros [m' losses].
  apply fail_stop_bind; [apply fail_stop_perform |]. intros metrics.
  apply fail_stop_bind; [apply fail_stop_lift |]. intros loss.
  apply fail_stop_bind; [apply fail_stop_lift |]. intros accuracy.
  apply fail_stop_perform.
Qed.

Lemma run_epochs_fail_stop n : fail_stop (run_epochs ld n).
Proof.
  unfold run_epochs. apply fail_stop_for_each. intros [] epoch.
  unfold epoch_body.
  apply fail_stop_bind; [apply train_fail_stop |]. intros _.
  apply test_fail_stop.
Qed.

End CellsFailStop.

(** ** Where the batches come from *)

Section LoopInputs.
Context `{SC : Scalar} {RT : TrainingRuntime} {ML : MetricLibrary}.

Lemma map_snd_enumerate_from {A} (xs : list A) :
  forall i, map snd (enumerate_from i xs) = xs.
Proof. induction xs as [| x xs IH]; intros i; cbn; [| rewrite IH]; reflexivity. Qed.

Lemma forward_calls_app (t1 t2 : list event) :
  forward_calls (t1 ++ t2) = forward_calls t1 ++ forward_calls t2.
Proof. apply flat_map_app. Qed.

Lemma all_forward_inputs_cons (b : batch) (bs : list batch) x xs :
  make_forward_inputs (fst b) (snd b) = Ok x ->
  all_forward_inputs bs = Ok xs ->
  all_forward_inputs (b :: bs) = Ok (x :: xs).
Proof. destruct b as [data target]. cbn. intros -> ->. reflexivity. Qed.

Lemma train_loop_inputs (items : list (nat * batch)) (acc : list scalar) (s : rt_state) :
  submitted_in_order (map snd items)
    (exists a, result_of (for_each items acc train_step) s = Ok a)
    (trace_of (for_each items acc train_step) s).
Proof.
  unfold trace_of, result_of.
  apply (for_each_run_ind train_step
           (fun xs _ _ run =>
              submitted_in_order (map snd xs) (exists a, fst (fst run) = Ok a) (snd run))).
  - intros acc0 s0. exists 0. cbn. repeat split; auto.
  - intros x xs acc0 s0 e s1 t1 Hbody. cbn [fst snd].
    apply train_step_trace in Hbody.
    destruct Hbody as [-> | (x0 & Hx & re & _ & Ht)].
    + exists 0. cbn. split; [lia |]. split; [reflexivity |].
      intros [a Ha]. discriminate.
    + exists 1. cbn [map firstn length]. split; [lia |]. split.
      * assert (Hf : forward_calls t1 = [x0])
          by (destruct Ht as [-> | (loss & logits & [-> | ->])]; reflexivity).
        rewrite Hf. apply all_forward_inputs_cons; [exact Hx | reflexivity].
      * intros [a Ha]. discriminate.
  - intros x xs acc0 s0 acc' s1 t1 r s2 t2 Hbody _ (k & Hk & Hin & Hall).
    cbn [fst snd] in *.
    apply train_step_trace in Hbody.
    destruct Hbody as (x0 & loss & logits & Hx & _ & ->).
    exists (S k). cbn [map firstn length]. split; [lia |]. split.
    + rewrite forward_calls_app.
      change (forward_calls [ok_event (CModelCall x0) (RForward loss logits);
                             ok_event COptimizerStep RNone;
                             ok_event CResetGrad RNone]) with [x0].
      apply all_forward_inputs_cons; [exact Hx | exact Hin].
    + intros Hok. f_equal. apply Hall. exact Hok.
Qed.

Lemma test_loop_inputs (items : list (nat * batch)) (acc : metric * list scalar)
      (s : rt_state) :
  submitted_in_order (map snd items)
    (exists a, result_of (for_each items acc test_step) s = Ok a)
    (trace_of (for_each items acc test_step) s).
Proof.
  unfold trace_of, result_of.
  apply (for_each_run_ind test_step
           (fun xs _ _ run =>
              submitted_in_order (map snd xs) (exists a, fst (fst run) = Ok a) (snd run))).
  - intros acc0 s0. exists 0. cbn. repeat split; auto.
  - intros x xs acc0 s0 e s1 t1 Hbody. cbn [fst snd].
    apply test_step_trace in Hbody.
    destruct Hbody as (x0 & Hx & [[-> _] | Ht]).
    + exists 0. cbn. split; [lia |]. split; [reflexivity |].
      intros [a Ha]. discriminate.
    + exists 1. cbn [map firstn length]. split; [lia |]. split.
      * assert (Hf : forward_calls t1 = [x0] /\ t1 <> []).
        { destruct Ht as [(re & _ & _ & ->)
                         | (loss & logits & _ & [[_ ->] | (preds & _ & ->)])];
            split; (reflexivity || discriminate). }
        destruct Hf as [Hf Hne]. rewrite Hf.
        apply all_forward_inputs_cons; [exact (Hx Hne) | reflexivity].
      * intros [a Ha]. discriminate.
  - intros x xs acc0 s0 acc' s1 t1 r s2 t2 Hbody _ (k & Hk & Hin & Hall).
    cbn [fst snd] in *.
    apply test_step_trace in Hbody.
    destruct Hbody as (x0 & _ & loss & logits & preds & Hx & _ & _ & _ & _ & ->).
    exists (S k). cbn [map firstn length]. split; [lia |]. split.
    + rewrite forward_calls_app.
      change (forward_calls [ok_event (CModelCall x0) (RForward loss logits);
                             ok_event (CAddBatch (snd (snd x)) preds) RNone]) with [x0].
      apply all_forward_inputs_cons; [exact Hx | exact Hin].
    + intros Hok. f_equal. apply Hall. exact Hok.
Qed.

End LoopInputs.


Section CellInputs.
Context `{SC : Scalar} {RT : TrainingRuntime} {ML : MetricLibrary}.
Variable ld : loaders.

Lemma train_inputs (epoch : Z) (s : rt_state) :
  submitted_in_order (train_loader ld)
    (result_of (train ld epoch) s = Ok tt)
    (trace_of (train ld epoch) s).
Proof.
  destruct (train_loop_inputs (enumerate (train_loader ld)) [] (module_train s))
    as (k & Hk & Hin & Hall).
  unfold enumerate in Hk, Hin, Hall at 2.
  rewrite map_snd_enumerate_from in Hk, Hin, Hall.
  fold (enumerate (train_loader ld)) in Hin, Hall. fold (train_loop ld) in Hin, Hall.
  exists k. split; [exact Hk |].
  unfold result_of at 1, trace_of at 1. rewrite train_run. cbv zeta.
  destruct (result_of (train_loop ld) (module_train s)) as [losses | e].
  - destruct (mean_loss losses) as [v | e]; cbn [fst snd].
    + split.
      * change (ok_event CModelTrain RNone :: ?t) with ([ok_event CModelTrain RNone] ++ t).
        rewrite !forward_calls_app. cbn. rewrite app_nil_r. exact Hin.
      * intros _. apply Hall. exists losses. reflexivity.
    + split; [exact Hin | discriminate].
  - cbn [fst snd]. split; [exact Hin | discriminate].
Qed.

Lemma test_inputs (epoch : Z) (s : rt_state) :
  submitted_in_order (train_loader ld)
    (result_of (test ld epoch) s = Ok tt)
    (trace_of (test ld epoch) s).
Proof.
  unfold result_of at 1, trace_of at 1. rewrite test_run. cbv zeta.
  destruct (evaluate_load "accuracy") as [m | e].
  2: { exists 0. cbn. split; [lia |]. split; [reflexivity | discriminate]. }
  destruct (test_loop_inputs (enumerate (train_loader ld)) (m, []) (module_eval s))
    as (k & Hk & Hin & Hall).
  unfold enumerate in Hk, Hin, Hall at 2.
  rewrite map_snd_enumerate_from in Hk, Hin, Hall.
  fold (enumerate (train_loader ld)) in Hin, Hall. fold (test_loop ld m) in Hin, Hall.
  exists k. split; [exact Hk |].
  destruct (result_of (test_loop ld m) (module_eval s)) as [[m' losses] | e].
  2: { cbn [fst snd]. split; [exact Hin | discriminate]. }
  assert (Hk' : k = length (train_loader ld))
    by (apply Hall; eexists; reflexivity).
  destruct (metric_compute m') as [metrics | e];
    [destruct (mean_loss losses) as [v | e];
     [destruct (dict_get metrics "accuracy") as [accuracy | e] | ] | ];
    cbn [fst snd]; (split; [| intros _; exact Hk']);
    rewrite ?forward_calls_app; cbn; rewrite ?app_nil_r; exact Hin.
Qed.


End CellInputs.

(** ** The inference cells *)

Section Inference.
Context `{SC : Scalar} {RT : TrainingRuntime} {ML : MetricLibrary}.
Variable ld : loaders.

(** A run of the export cell. *)
Lemma export_run (s : rt_state) :
  export_cell s =
  match module_export_model_for_inferencing s "data/inference_model.onnx" ["output-0"%string] with
  | (s1, Failed e) =>
      (Raise (RuntimeFailure e), s1,
       [failed_event (CExport "data/inference_model.onnx" ["output-0"%string]) e])
  | (s1, Returned _) =>
      match inference_session s1 "data/inference_model.onnx" ["CPUExecutionProvider"%string] with
      | Failed e =>
          (Raise (RuntimeFailure e), s1,
           [ok_event (CExport "data/inference_model.onnx" ["output-0"%string]) RNone;
            failed_event (CInferenceSession "data/inference_model.onnx" ["CPUExecutionProvider"%string]) e])
      | Returned sess =>
          (Ok sess, s1,
           [ok_event (CExport "data/inference_model.onnx" ["output-0"%string]) RNone;
            ok_event (CInferenceSession "data/inference_model.onnx" ["CPUExecutionProvider"%string]) RNone])
      end
  end.
Proof.
  unfold export_cell. rewrite bind_run.
  unfold export_model_for_inferencing, perform, on_state.
  destruct (module_export_model_for_inferencing s _ _) as [s1 [[] | e]]; [| reflexivity].
  cbn [result_of_rt outcome_of no_value].
  unfold new_inference_session, perform.
  destruct (inference_session s1 _ _) as [sess | e]; reflexivity.
Qed.

(** A run of the cell that feeds one example to the session. *)
Lemma inference_run (sess : session) (s : rt_state) :
  inference_cell ld sess s =
  match next_iter (test_loader ld) with
  | Raise e => (Raise e, s, [])
  | Ok first_batch =>
  match getitem0 (fst first_batch) with
  | Raise e => (Raise e, s, [])
  | Ok data =>
  let ev_in := ok_event CGetInputs (RNames (session_get_inputs sess)) in
  match list_getitem0 (session_get_inputs sess) with
  | Raise e => (Raise e, s, [ev_in])
  | Ok input_name =>
  let ev_out := ok_event CGetOutputs (RNames (session_get_outputs sess)) in
  match list_getitem0 (session_get_outputs sess) with
  | Raise e => (Raise e, s, [ev_in; ev_out])
  | Ok output_name =>
  match reshape data [1; 784] with
  | Raise e => (Raise e, s, [ev_in; ev_out])
  | Ok x =>
  let run := CSessionRun [output_name] [(input_name, numpy x)] in
  match session_run sess [output_name] [(input_name, numpy x)] with
  | Failed e => (Raise (RuntimeFailure e), s, [ev_in; ev_out; failed_event run e])
  | Returned output =>
  let ev_run := ok_event run (ROutputs output) in
  match getitem0 data with
  | Raise e => (Raise e, s, [ev_in; ev_out; ev_run])
  | Ok img =>
  if image_shape (shape img) then
  let shown := [ev_in; ev_out; ev_run;
                ok_event (CImshow img "gray") RNone; ok_event CShow RNone] in
  match list_getitem0 output with
  | Raise e => (Raise e, s, shown)
  | Ok out0 =>
  match get_pred out0 with
  | Raise e => (Raise e, s, shown)
  | Ok label => (Ok tt, s, shown ++ [ok_event (CPrint (PredictedLabel label)) RNone])
  end end
  else (Raise TypeError, s,
        [ev_in; ev_out; ev_run; Event (CImshow img "gray") (Raise TypeError)])
  end end end end end end end.
Proof.
  unfold inference_cell, bind, lift, get_inputs_call, get_outputs_call,
    session_run_call, imshow, show, print, perform, stateless.
  cbv zeta.
  destruct (next_iter (test_loader ld)) as [first_batch | e]; [| reflexivity].
  destruct (getitem0 (fst first_batch)) as [data | e]; [| reflexivity].
  destruct (list_getitem0 (session_get_inputs sess)) as [input_name | e]; [| reflexivity].
  destruct (list_getitem0 (session_get_outputs sess)) as [output_name | e]; [| reflexivity].
  destruct (reshape data [1; 784]) as [x | e]; [| reflexivity].
  destruct (session_run sess [output_name] [(input_name, numpy x)]) as [output | e];
    [| reflexivity].
  cbv beta iota delta [result_of_rt].
  destruct (getitem0 data) as [img | e]; [| reflexivity].
  destruct (image_shape (shape img)); [| reflexivity].
  destruct (list_getitem0 output) as [out0 | e]; [| reflexivity].
  destruct (get_pred out0) as [label | e]; reflexivity.
Qed.

End Inference.



Lemma reshape_shape {A} (t x : ndarray A) (dims : list nat) :
  reshape t dims = Ok x -> shape x = dims /\ data x = data t.
Proof.
  unfold reshape. destruct (numel dims =? length (data t)); [| discriminate].
  intros H. injection H as <-. split; reflexivity.
Qed.

(** C6.  The export-and-run stage makes each of its calls once.  When it
    completes, its trace is exactly: the export of the graph under
    ["data/inference_model.onnx"] naming the one output ["output-0"], the
    construction of a session from that same path, the two name queries,
    one run of the session on one input, the first example of the first
    test batch reshaped to (1, 784), the plot, and the print of [get_pred]
    of the first output.  Whether it completes or not, the export, the
    session constructor and the session run are each called at most
    once. *)
Theorem inference_is_one_shot `{SC : Scalar} {RT : TrainingRuntime}
        (ld : loaders) (s : rt_state) :
  (result_of (run_inferencing ld) s = Ok tt ->
   exists s1 sess first_batch rest data x input_name output_name output img out0 label,
     module_export_model_for_inferencing s "data/inference_model.onnx" ["output-0"%string]
     = (s1, Returned tt) /\
     inference_session s1 "data/inference_model.onnx" ["CPUExecutionProvider"%string]
     = Returned sess /\
     test_loader ld = first_batch :: rest /\
     getitem0 (fst first_batch) = Ok data /\
     reshape data [1; 784] = Ok x /\
     shape x = [1; 784] /\
     list_getitem0 (session_get_inputs sess) = Ok input_name /\
     list_getitem0 (session_get_outputs sess) = Ok output_name /\
     session_run sess [output_name] [(input_name, numpy x)] = Returned output /\
     list_getitem0 output = Ok out0 /\
     get_pred out0 = Ok label /\
     trace_of (run_inferencing ld) s =
     [ok_event (CExport "data/inference_model.onnx" ["output-0"%string]) RNone;
      ok_event (CInferenceSession "data/inference_model.onnx"
                                  ["CPUExecutionProvider"%string]) RNone;
      ok_event CGetInputs (RNames (session_get_inputs sess));
      ok_event CGetOutputs (RNames (session_get_outputs sess));
      ok_event (CSessionRun [output_name] [(input_name, numpy x)]) (ROutputs output);
      ok_event (CImshow img "gray") RNone;
      ok_event CShow RNone;
      ok_event (CPrint (PredictedLabel label)) RNone]) /\
  count_calls is_export (trace_of (run_inferencing ld) s) <= 1 /\
  count_calls is_new_session (trace_of (run_inferencing ld) s) <= 1 /\
  count_calls is_session_run (trace_of (run_inferencing ld) s) <= 1.
Proof.
  unfold result_of, trace_of, run_inferencing.
  rewrite bind_run, export_run.
  destruct (module_export_model_for_inferencing s _ _) as [s1 [[] | e]] eqn:Hexport;
    [| cbn; split; [discriminate | repeat split; lia]].
  destruct (inference_session s1 _ _) as [sess | e] eqn:Hsess;
    [| cbn; split; [discriminate | repeat split; lia]].
  rewrite inference_run. cbv zeta.
  destruct (test_loader ld) as [| first_batch rest] eqn:Hld; cbn [next_iter];
    [cbn; split; [discriminate | repeat split; lia] |].
  destruct (getitem0 (fst first_batch)) as [data | e] eqn:Hdata;
    [| cbn; split; [discriminate | repeat split; lia]].
  destruct (list_getitem0 (session_get_inputs sess)) as [input_name | e] eqn:Hin;
    [| cbn; split; [discriminate | repeat split; lia]].
  destruct (list_getitem0 (session_get_outputs sess)) as [output_name | e] eqn:Hout;
    [| cbn; split; [discriminate | repeat split; lia]].
  destruct (reshape data [1; 784]) as [x | e] eqn:Hx;
    [| cbn; split; [discriminate | repeat split; lia]].
  destruct (session_run sess [output_name] [(input_name, numpy x)]) as [output | e] eqn:Hrun;
    [| cbn; split; [discriminate | repeat split; lia]].
  destruct (getitem0 data) as [img | e] eqn:Himg;
    [| cbn; split; [discriminate | repeat split; lia]].
  destruct (image_shape (shape img)) eqn:Hshown;
    [| cbn; split; [discriminate | repeat split; lia]].
  destruct (list_getitem0 output) as [out0 | e] eqn:Hout0;
    [| cbn; split; [discriminate | repeat split; lia]].
  destruct (get_pred out0) as [label | e] eqn:Hlabel;
    [| cbn; split; [discriminate | repeat split; lia]].
  cbn. split; [| repeat split; lia].
  intros _.
  exists s1, sess, first_batch, rest, data, x, input_name, output_name, output, img,
    out0, label.
  destruct (reshape_shape _ _ Hx) as [Hshape _].
  repeat split; auto.
Qed.

Lemma inference_is_one_shot_witness :
  result_of (@run_inferencing ZScalar Demo.demo_runtime Demo.demo_loaders) Demo.demo_state
  = Ok tt /\
  exists label,
    In (ok_event (CPrint (PredictedLabel label)) RNone)
       (trace_of (@run_inferencing ZScalar Demo.demo_runtime Demo.demo_loaders)
                 Demo.demo_state).
Proof.
  assert (Hok : result_of (@run_inferencing ZScalar Demo.demo_runtime Demo.demo_loaders)
                          Demo.demo_state = Ok tt)
    by (vm_compute; reflexivity).
  split; [exact Hok |].
  destruct (proj1 (@inference_is_one_shot ZScalar Demo.demo_runtime Demo.demo_loaders
                     Demo.demo_state) Hok)
    as (s1 & sess & b & rest & data & x & i & o & output & img & out0 & label & H).
  exists label.
  destruct H as (_ & _ & _ & _ & _ & _ & _ & _ & _ & _ & _ & ->).
  do 7 right. left. reflexivity.
Defined.

(** C9.  In [train], in [test] and in the epoch loop that calls them, a
    failed call into a collaborator is the last call of the run, and its
    error is what the run raises: the iteration is not completed, the
    batch is not submitted again (the module sees each batch of the loader
    at most once, in order), no later batch, report or epoch follows.
    When [train] raises, so does the epoch body that called it, without
    calling [test]; when an epoch raises, the loop over epochs raises the
    same error without entering the next one. *)
Theorem runtime_error_aborts_epoch `{SC : Scalar} {RT : TrainingRuntime} {ML : MetricLibrary}
        (ld : loaders) (s : rt_state) :
  (forall epoch,
      fails_last (result_of (train ld epoch) s) (trace_of (train ld epoch) s)) /\
  (forall epoch,
      fails_last (result_of (test ld epoch) s) (trace_of (test ld epoch) s)) /\
  (forall n,
      fails_last (result_of (run_epochs ld n) s) (trace_of (run_epochs ld n) s)) /\
  (forall epoch,
      submitted_in_order (train_loader ld)
        (result_of (train ld epoch) s = Ok tt) (trace_of (train ld epoch) s)) /\
  (forall n x,
      result_of (train ld (Z.of_nat n)) s = Raise x ->
      epoch_body ld tt n s =
      (Raise x, final_state (train ld (Z.of_nat n)) s, trace_of (train ld (Z.of_nat n)) s)) /\
  (forall n later x,
      result_of (epoch_body ld tt n) s = Raise x ->
      for_each (n :: later) tt (epoch_body ld) s =
      (Raise x, final_state (epoch_body ld tt n) s, trace_of (epoch_body ld tt n) s)).
Proof.
  split; [intros epoch; apply train_fail_stop |].
  split; [intros epoch; apply test_fail_stop |].
  split; [intros n; apply run_epochs_fail_stop |].
  split; [intros epoch; apply train_inputs |].
  split.
  - intros n x Hx. unfold epoch_body.
    apply bind_raise. rewrite (run_eta (train ld (Z.of_nat n)) s), Hx. reflexivity.
  - intros n later x Hx.
    apply for_each_raise. rewrite (run_eta (epoch_body ld tt n) s), Hx. reflexivity.
Qed.

Lemma runtime_error_aborts_epoch_witness :
  result_of (@train ZScalar Demo.failing_runtime Demo.demo_loaders 0%Z) Demo.demo_state
  = Raise (RuntimeFailure ExecutionError).
Proof.
  destruct (@runtime_error_aborts_epoch ZScalar Demo.failing_runtime Demo.demo_metric
              Demo.demo_loaders Demo.demo_state) as (Htrain & _).
  refine (proj2 (Htrain 0%Z
                   (firstn 5 (trace_of (@train ZScalar Demo.failing_runtime
                                          Demo.demo_loaders 0%Z) Demo.demo_state))
                   (failed_event COptimizerStep ExecutionError) []
                   (RuntimeFailure ExecutionError) _ _)).
  - reflexivity.
  - reflexivity.
Defined.

(** ** A loader without batches *)

(** C10, as the code has it.  When the training loader yields no batch,
    [train] raises [ZeroDivisionError] at the mean of the empty list, after
    the mode toggle alone and without printing.  [test] does not complete
    and prints nothing either, but it finalises the metric first: it
    raises [ZeroDivisionError] when loading the metric and finalising it
    return, and otherwise raises what the metric library raised. *)
Theorem no_batches_no_report `{SC : Scalar} {RT : TrainingRuntime} {ML : MetricLibrary}
        (ld : loaders) (epoch : Z) (s : rt_state) :
  train_loader ld = [] ->
  train ld epoch s =
  (Raise ZeroDivisionError, module_train s, [ok_event CModelTrain RNone]) /\
  result_of (test ld epoch) s <> Ok tt /\
  count_calls is_print (trace_of (test ld epoch) s) = 0 /\
  (forall m metrics,
      evaluate_load "accuracy" = Ok m ->
      metric_compute m = Ok metrics ->
      test ld epoch s =
      (Raise ZeroDivisionError, module_eval s,
       [ok_event CModelEval RNone;
        ok_event (CEvaluateLoad "accuracy") RNone;
        ok_event CCompute (RMetrics metrics)])) /\
  (forall m e,
      evaluate_load "accuracy" = Ok m ->
      metric_compute m = Raise e ->
      result_of (test ld epoch) s = Raise e) /\
  (forall e,
      evaluate_load "accuracy" = Raise e ->
      result_of (test ld epoch) s = Raise e).
Proof.
  intros Hnil.
  split.
  { rewrite train_run. unfold train_loop. rewrite Hnil. reflexivity. }
  unfold result_of, trace_of. rewrite test_run. unfold test_loop. rewrite Hnil.
  cbv zeta. cbn [enumerate enumerate_from for_each].
  destruct (evaluate_load "accuracy") as [m | e] eqn:Hload.
  - unfold result_of, final_state, trace_of, ret. cbn [fst snd].
    destruct (metric_compute m) as [metrics | e] eqn:Hcompute; cbn.
    + split; [discriminate |]. split; [reflexivity |]. split; [| split].
      * intros m0 metrics0 H0 H1. injection H0 as <-.
        rewrite Hcompute in H1. injection H1 as <-. reflexivity.
      * intros m0 e H0 H1. injection H0 as <-. congruence.
      * discriminate.
    + split; [discriminate |]. split; [reflexivity |]. split; [| split].
      * intros m0 metrics0 H0 H1. injection H0 as <-. congruence.
      * intros m0 e0 H0 H1. injection H0 as <-. congruence.
      * discriminate.
  - cbn. split; [discriminate |]. split; [reflexivity |]. split; [| split].
    + discriminate.
    + discriminate.
    + intros e0 H0. congruence.
Qed.

Lemma no_batches_no_report_witness :
  @train ZScalar Demo.demo_runtime Demo.no_batches 0%Z Demo.demo_state =
  (Raise ZeroDivisionError, @module_train ZScalar Demo.demo_runtime Demo.demo_state,
   [ok_event CModelTrain RNone]).
Proof.
  apply (@no_batches_no_report ZScalar Demo.demo_runtime Demo.demo_metric
           Demo.no_batches 0%Z Demo.demo_state).
  reflexivity.
Defined.

(** C10, as stated, fails for [test]: with a metric library that refuses
    to finalise an aggregator no batch was added to, [test] on an empty
    loader raises that library's error, not [ZeroDivisionError]. *)
Lemma test_without_batches_raises_metric_error :
  train_loader Demo.no_batches = [] /\
  result_of (@test ZScalar Demo.demo_runtime Demo.demo_metric Demo.no_batches 0%Z)
            Demo.demo_state = Raise ValueError /\
  result_of (@test ZScalar Demo.demo_runtime Demo.demo_metric Demo.no_batches 0%Z)
            Demo.demo_state <> Raise ZeroDivisionError.
Proof. repeat split. discriminate. Qed.

(** ** The evaluation loop *)

Section TestLoopCalls.
Context `{SC : Scalar} {RT : TrainingRuntime} {ML : MetricLibrary}.











End TestLoopCalls.

Section TestCalls.
Context `{SC : Scalar} {RT : TrainingRuntime} {ML : MetricLibrary}.
Variable ld : loaders.



End TestCalls.

(** ** Forward-only passes on the contract runtime *)

Section EvalMode.
Context `{SC : Scalar} {ML : MetricLibrary}.
Variables Ckpt Grad : Type.
Variable art : artifacts Ckpt Grad.

Let RT : TrainingRuntime := SpecRuntime art.
#[local] Existing Instance RT.

(** In eval mode a call of the module changes nothing and returns what
    the eval graph computes from the checkpoint and the inputs. *)
Lemma eval_call_pure (s s1 : spec_state Ckpt Grad) (x : forward_inputs)
      (r : rt_result (scalar * ndarray scalar)) :
  training s = false ->
  spec_module_call art s x = (s1, r) ->
  s1 = s /\ r = eval_graph art (checkpoint s) x.
Proof.
  intros Hmode. unfold spec_module_call. rewrite Hmode.
  intros H. injection H as <- <-. split; reflexivity.
Qed.

(** Through the loop of [test], entered in eval mode, the state of the
    runtime stays what it was, and every call of the module returns what
    the eval graph computes from the checkpoint at entry. *)
Lemma test_loop_frame (items : list (nat * batch)) (acc : metric * list scalar)
      (s : spec_state Ckpt Grad) :
  training s = false ->
  final_state (for_each items acc test_step) s = s /\
  Forall (fun e => forall x, ev_call e = CModelCall x ->
                             ev_outcome e = eval_outcome art (checkpoint s) x)
         (trace_of (for_each items acc test_step) s).
Proof.
  unfold trace_of, final_state.
  apply (@for_each_run_ind SC RT _ _ test_step
           (fun _ _ (s0 : @rt_state SC RT) run =>
              training s0 = false ->
              snd (fst run) = s0 /\
              Forall (fun e => forall x, ev_call e = CModelCall x ->
                                         ev_outcome e = eval_outcome art (checkpoint s0) x)
                     (snd run))).
  - intros acc0 s0 _. cbn. split; [reflexivity | constructor].
  - intros x xs acc0 s0 e s1 t1 Hbody Hmode. cbn [fst snd].
    apply test_step_trace in Hbody.
    destruct Hbody as
        (x0 & _ & [[-> ->] | [(re & Hcall & _ & ->)
                             | (loss & logits & Hcall & [[_ ->] | (preds & _ & ->)])]]).
    + split; [reflexivity | constructor].
    + destruct (eval_call_pure _ _ Hmode Hcall) as [-> Hr].
      split; [reflexivity |]. constructor; [| constructor].
      intros x1 Hx1. injection Hx1 as <-. unfold eval_outcome. rewrite <- Hr. reflexivity.
    + destruct (eval_call_pure _ _ Hmode Hcall) as [-> Hr].
      split; [reflexivity |]. constructor; [| constructor].
      intros x1 Hx1. injection Hx1 as <-. unfold eval_outcome. rewrite <- Hr. reflexivity.
    + destruct (eval_call_pure _ _ Hmode Hcall) as [-> Hr].
      split; [reflexivity |]. constructor; [| constructor; [discriminate | constructor]].
      intros x1 Hx1. injection Hx1 as <-. unfold eval_outcome. rewrite <- Hr. reflexivity.
  - intros x xs acc0 s0 acc' s1 t1 r s2 t2 Hbody _ IH Hmode.
    cbn [fst snd] in *.
    apply test_step_trace in Hbody.
    destruct Hbody as (x0 & _ & loss & logits & preds & _ & Hcall & _ & _ & _ & ->).
    destruct (eval_call_pure _ _ Hmode Hcall) as [-> Hr].
    destruct (IH Hmode) as [-> Hall].
    split; [reflexivity |].
    constructor; [| constructor; [discriminate | exact Hall]].
    intros x1 Hx1. injection Hx1 as <-. unfold eval_outcome. rewrite <- Hr. reflexivity.
Qed.

Variable ld : loaders.

(** A run of [test] leaves the runtime as [model.eval()] put it, and
    answers every call of the module from the checkpoint it started
    with. *)
Lemma test_frame (epoch : Z) (s : spec_state Ckpt Grad) :
  final_state (test ld epoch) s = spec_set_mode false s /\
  Forall (fun e => forall x, ev_call e = CModelCall x ->
                             ev_outcome e = eval_outcome art (checkpoint s) x)
         (trace_of (test ld epoch) s).
Proof.
  unfold final_state, trace_of. rewrite test_run. cbv zeta.
  destruct (evaluate_load "accuracy") as [m | e].
  2: { cbn. split; [reflexivity |]. repeat constructor; discriminate. }
  destruct (test_loop_frame (enumerate (train_loader ld)) (m, [])
              (spec_set_mode false s) eq_refl) as [Hstate Hall].
  fold (test_loop ld m) in Hstate, Hall.
  change (@module_eval SC RT s) with (spec_set_mode false s).
  destruct (result_of (@test_loop SC RT ML ld m) (spec_set_mode false s))
    as [[m' losses] | e];
    [destruct (metric_compute m') as [metrics | e];
     [destruct (mean_loss losses) as [v | e];
      [destruct (dict_get metrics "accuracy") as [accuracy | e] |] |] |];
    cbn [fst snd]; (split; [exact Hstate |]);
    repeat (apply Forall_app; split); try exact Hall;
    repeat constructor; discriminate.
Qed.

End EvalMode.




(** C3.  On the runtime of the capability contract, in eval mode: a call
    of the module leaves the runtime as it was, so calling it again on the
    same batch returns the same loss and the same outputs; within a run of
    [test], any two calls of the module on the same inputs have the same
    outcome; and running [test] a second time, right after the first,
    repeats the first run call by call. *)
Theorem eval_forward_is_repeatable `{SC : Scalar} {ML : MetricLibrary} (Ckpt Grad : Type)
        (art : artifacts Ckpt Grad) (ld : loaders) (epoch : Z)
        (s : spec_state Ckpt Grad) :
  let run := @test SC (SpecRuntime art) ML ld epoch in
  (forall s0 x s1 r1,
      training s0 = false ->
      @module_call SC (SpecRuntime art) s0 x = (s1, r1) ->
      s1 = s0 /\ @module_call SC (SpecRuntime art) s1 x = (s1, r1)) /\
  (forall i j x oi oj,
      nth_error (trace_of run s) i = Some (Event (CModelCall x) oi) ->
      nth_error (trace_of run s) j = Some (Event (CModelCall x) oj) ->
      oi = oj) /\
  run (final_state run s) = run s.
Proof.
  cbv zeta. split; [| split].
  - intros s0 x s1 r1 Hmode Hcall. cbn in Hcall |- *.
    destruct (eval_call_pure art _ _ Hmode Hcall) as [-> Hr].
    split; [reflexivity | exact Hcall].
  - intros i j x oi oj Hi Hj.
    destruct (test_frame art ld epoch s) as [_ Hall].
    rewrite Forall_forall in Hall.
    apply nth_error_In in Hi, Hj.
    pose proof (Hall _ Hi x eq_refl) as Ei. pose proof (Hall _ Hj x eq_refl) as Ej.
    cbn [ev_outcome] in Ei, Ej. congruence.
  - destruct (test_frame art ld epoch s) as [-> _].
    rewrite !test_run. reflexivity.
Qed.

Lemma eval_forward_is_repeatable_witness :
  exists x oi oj,
    nth_error (trace_of (@test ZScalar Demo.demo_runtime Demo.demo_metric
                           Demo.repeated_batch 0%Z) Demo.demo_state) 2
    = Some (Event (CModelCall x) oi) /\
    nth_error (trace_of (@test ZScalar Demo.demo_runtime Demo.demo_metric
                           Demo.repeated_batch 0%Z) Demo.demo_state) 4
    = Some (Event (CModelCall x) oj) /\
    oi = oj.
Proof.
  eexists _, _, _.
  split; [reflexivity |]. split; [reflexivity |].
  eapply (proj1 (proj2 (@eval_forward_is_repeatable ZScalar Demo.demo_metric Z Z
                          Demo.demo_artifacts Demo.repeated_batch 0%Z Demo.demo_state))
            2 4);
    reflexivity.
Defined.

(** ** Output names of the exported graph *)

Section OutputNames.
Context `{SC : Scalar}.
Variables Ckpt Grad : Type.
Variable art : artifacts Ckpt Grad.




End OutputNames.



(** * Further properties of the cells *)

(** ** Preparing a batch for the module *)

Lemma wrap_int32_range (z : Z) : (- 2 ^ 31 <= wrap_int32 z < 2 ^ 31)%Z.
Proof.
  unfold wrap_int32.
  pose proof (Z.mod_pos_bound (z + 2 ^ 31) (2 ^ 32) ltac:(lia)) as H.
  change (2 ^ 32)%Z with (2 * 2 ^ 31)%Z in *. lia.
Qed.

Lemma wrap_int32_congruent (z : Z) : ((wrap_int32 z - z) mod 2 ^ 32 = 0)%Z.
Proof.
  unfold wrap_int32.
  rewrite (Z.mod_eq (z + 2 ^ 31) (2 ^ 32)) by lia.
  replace (z + 2 ^ 31 - 2 ^ 32 * ((z + 2 ^ 31) / 2 ^ 32) - 2 ^ 31 - z)%Z
    with ((- ((z + 2 ^ 31) / 2 ^ 32)) * 2 ^ 32)%Z by lia.
  apply Z.mod_mul. lia.
Qed.

Lemma wrap_int32_small (z : Z) : (- 2 ^ 31 <= z < 2 ^ 31)%Z -> wrap_int32 z = z.
Proof.
  intros H. unfold wrap_int32.
  rewrite Z.mod_small; [lia |].
  change (2 ^ 32)%Z with (2 * 2 ^ 31)%Z. lia.
Qed.

(** X1.  [astype(np.int32)] keeps the shape of the label array and the
    number of labels; every label it returns is a 32-bit signed integer
    congruent, modulo 2^32, to the label it came from; and labels that
    already fit in 32 bits, as the digits 0 to 9 do, are left as they
    are. *)
Theorem astype_int32_spec (a : ndarray Z) :
  shape (astype_int32 a) = shape a /\
  length (data (astype_int32 a)) = length (data a) /\
  Forall (fun z => (- 2 ^ 31 <= z < 2 ^ 31)%Z) (data (astype_int32 a)) /\
  Forall2 (fun z w => ((w - z) mod 2 ^ 32 = 0)%Z) (data a) (data (astype_int32 a)) /\
  (Forall (fun z => (- 2 ^ 31 <= z < 2 ^ 31)%Z) (data a) -> astype_int32 a = a).
Proof.
  destruct a as [sh l]. unfold astype_int32. cbn [shape data].
  split; [reflexivity |]. split; [apply length_map |].
  split; [| split].
  - apply Forall_map. apply Forall_forall. intros z _. apply wrap_int32_range.
  - induction l as [| z l IH]; cbn; constructor; [apply wrap_int32_congruent | exact IH].
  - intros Hall. f_equal.
    induction Hall as [| z l Hz _ IH]; cbn; [reflexivity |].
    rewrite (wrap_int32_small Hz), IH. reflexivity.
Qed.

Lemma astype_int32_spec_witness :
  astype_int32 {| shape := [3]; data := [0; 9; 7]%Z |}
  = {| shape := [3]; data := [0; 9; 7]%Z |}.
Proof.
  apply (astype_int32_spec {| shape := [3]; data := [0; 9; 7]%Z |}).
  repeat constructor; lia.
Defined.

Section BatchPreparation.
Context `{SC : Scalar}.

Lemma numel_rows (n : nat) : numel [n; 784] = n * 784.
Proof. unfold numel. cbn [fold_right]. rewrite Nat.mul_1_r. reflexivity. Qed.

Lemma numel_mnist (n : nat) : numel [n; 1; 28; 28] = n * 784.
Proof. unfold numel. cbn [fold_right]. lia. Qed.

End BatchPreparation.

(** X2.  What [[data.reshape(len(data),784).numpy(),
    target.numpy().astype(np.int32)]] gives.  It returns exactly when the
    feature tensor has a first axis and 784 values per entry of that axis;
    the features then keep their buffer under the shape (len, 784) and the
    labels are the int32 cast of the targets.  Otherwise it raises: the
    [TypeError] of [len()] on a 0-d tensor, or the error of [reshape] on a
    buffer of any other size. *)
Theorem make_forward_inputs_spec `{SC : Scalar} (features : ndarray scalar)
        (target : ndarray Z) :
  match make_forward_inputs features target with
  | Ok (x, y) =>
      exists n rest,
        shape features = n :: rest /\
        length (data features) = n * 784 /\
        shape x = [n; 784] /\
        data x = data features /\
        wf_array x /\
        y = astype_int32 target
  | Raise e =>
      (shape features = [] /\ e = TypeError) \/
      (exists n rest,
          shape features = n :: rest /\
          length (data features) <> n * 784 /\
          e = TorchRuntimeError)
  end.
Proof.
  unfold make_forward_inputs, tensor_len, reshape, numpy.
  destruct (shape features) as [| n rest] eqn:Hshape.
  - left. split; reflexivity.
  - rewrite numel_rows.
    destruct (Nat.eqb_spec (n * 784) (length (data features))) as [Heq | Hne].
    + exists n, rest. unfold wf_array. cbn [shape data]. rewrite numel_rows.
      repeat split; auto.
    + right. exists n, rest. repeat split; auto.
Qed.

(** X3.  A batch of [n] MNIST images, of shape (n, 1, 28, 28), always
    passes the preparation: the module is given a well-formed (n, 784)
    array with the pixels in the order they had. *)
Theorem make_forward_inputs_mnist `{SC : Scalar} (n : nat) (features : ndarray scalar)
        (target : ndarray Z) :
  mnist_batch n features ->
  exists x,
    make_forward_inputs features target = Ok (x, astype_int32 target) /\
    shape x = [n; 784] /\
    data x = data features /\
    wf_array x.
Proof.
  intros [Hshape Hwf]. unfold wf_array in Hwf. rewrite Hshape, numel_mnist in Hwf.
  unfold make_forward_inputs, tensor_len, reshape, numpy. rewrite Hshape, numel_rows.
  destruct (Nat.eqb_spec (n * 784) (length (data features))) as [_ | Hne];
    [| congruence].
  eexists. split; [reflexivity |]. cbn [shape data].
  repeat split. unfold wf_array. cbn [shape data]. rewrite numel_rows. exact Hwf.
Qed.

Lemma make_forward_inputs_mnist_witness :
  exists x,
    @make_forward_inputs ZScalar Demo.blank_image {| shape := [1]; data := [7%Z] |}
    = Ok (x, astype_int32 {| shape := [1]; data := [7%Z] |}) /\
    shape x = [1; 784] /\
    data x = data Demo.blank_image /\
    wf_array x.
Proof.
  apply (@make_forward_inputs_mnist ZScalar 1 Demo.blank_image).
  split; reflexivity.
Defined.

(** ** The example fed to the session *)

(** X4.  From a test batch of [n >= 1] MNIST images the inference cell
    gets what it needs without a shape error: [batch[0]] is the first
    image, of shape (1, 28, 28); its reshape to (1, 784) succeeds and holds
    the first 784 pixels of the batch; and [data[0]], the picture that is
    plotted, is a well-formed 28 by 28 array of the same pixels. *)
Theorem first_example_of_mnist_batch `{SC : Scalar} (n : nat) (features : ndarray scalar) :
  mnist_batch n features ->
  0 < n ->
  exists example x img,
    getitem0 features = Ok example /\
    shape example = [1; 28; 28] /\
    wf_array example /\
    reshape example [1; 784] = Ok x /\
    shape x = [1; 784] /\
    data x = firstn 784 (data features) /\
    getitem0 example = Ok img /\
    shape img = [28; 28] /\
    data img = firstn 784 (data features) /\
    wf_array img.
Proof.
  intros [Hshape Hwf] Hn. unfold wf_array in Hwf.
  rewrite Hshape, numel_mnist in Hwf.
  assert (H784 : numel [1; 28; 28] = 784) by (unfold numel; cbn [fold_right]; lia).
  assert (H28 : numel [28; 28] = 784) by (unfold numel; cbn [fold_right]; lia).
  assert (Hlen : length (firstn 784 (data features)) = 784)
    by (rewrite length_firstn; lia).
  unfold getitem0 at 1. rewrite Hshape.
  destruct (Nat.eqb_spec n 0) as [Hz | _]; [lia |].
  rewrite H784.
  eexists _, _, _.
  split; [reflexivity |]. cbn [shape data].
  split; [reflexivity |].
  split; [unfold wf_array; cbn [shape data]; rewrite H784; exact Hlen |].
  unfold reshape, getitem0. cbn [shape data].
  rewrite numel_rows, Hlen, H28.
  cbn [Nat.mul Nat.add Nat.eqb].
  destruct (Nat.eqb_spec 784 784) as [_ | Hne]; [| congruence].
  split; [reflexivity |]. cbn [shape data].
  split; [reflexivity |]. split; [reflexivity |].
  split; [reflexivity |]. split; [reflexivity |].
  split; [apply firstn_all2; lia |].
  unfold wf_array. cbn [shape data]. rewrite H28.
  rewrite length_firstn. lia.
Qed.

Lemma first_example_of_mnist_batch_witness :
  exists example x img,
    @getitem0 Z Demo.blank_image = Ok example /\
    shape example = [1; 28; 28] /\
    wf_array example /\
    reshape example [1; 784] = Ok x /\
    shape x = [1; 784] /\
    data x = firstn 784 (data Demo.blank_image) /\
    getitem0 example = Ok img /\
    shape img = [28; 28] /\
    data img = firstn 784 (data Demo.blank_image) /\
    wf_array img.
Proof.
  apply (@first_example_of_mnist_batch ZScalar 1 Demo.blank_image).
  - split; reflexivity.
  - lia.
Defined.

(** X5.  Without an example there is no inference: when the test loader
    yields no batch the inference cell raises [StopIteration], and when
    its first batch holds no image (or is not even a sequence) it raises
    [IndexError]; in both cases it stops before any call, so the session
    is never queried or run and nothing is plotted or printed. *)
Theorem inference_cell_needs_an_example `{SC : Scalar} {RT : TrainingRuntime}
        (ld : loaders) (sess : session) (s : rt_state) :
  (test_loader ld = [] ->
   inference_cell ld sess s = (Raise StopIteration, s, [])) /\
  (forall features target rest,
      test_loader ld = (features, target) :: rest ->
      (shape features = [] \/ exists dims, shape features = 0 :: dims) ->
      inference_cell ld sess s = (Raise IndexError, s, [])).
Proof.
  split.
  - intros Hnil. rewrite inference_run, Hnil. reflexivity.
  - intros features target rest Hld Hshape.
    rewrite inference_run, Hld. cbn [next_iter fst].
    unfold getitem0.
    destruct Hshape as [-> | [dims ->]]; reflexivity.
Qed.

Lemma inference_cell_needs_an_example_witness :
  @inference_cell ZScalar Demo.demo_runtime Demo.no_test_batches
    {| g_inputs := ["input-0"%string]; g_outputs := ["output-0"%string]; g_params := 5%Z |}
    Demo.demo_state
  = (Raise StopIteration, Demo.demo_state, []).
Proof.
  apply (@inference_cell_needs_an_example ZScalar Demo.demo_runtime Demo.no_test_batches).
  reflexivity.
Defined.

(** ** [get_pred] on arrays of any rank *)

Section ArgmaxRange.
Context `{SC : Scalar}.

Lemma argmax_from_bound (l : list scalar) :
  forall best_i best i,
    best_i < i -> argmax_from best_i best i l < i + length l.
Proof.
  induction l as [| x l IH]; intros best_i best i Hlt; cbn [argmax_from length].
  - lia.
  - destruct (sc_leb x best).
    + specialize (IH best_i best (S i)). lia.
    + destruct (sc_isnan x); [lia |].
      specialize (IH i x (S i)). lia.
Qed.

Lemma argmax_list_bound (l : list scalar) : l <> [] -> argmax_list l < length l.
Proof.
  destruct l as [| x l]; [congruence |]. intros _. cbn [argmax_list length].
  destruct (sc_isnan x); [lia |].
  pose proof (argmax_from_bound l x (best_i := 0) (i := 1)). lia.
Qed.

Lemma length_flat_map_const {A B} (f : A -> list B) (l : list A) (k : nat) :
  (forall a, length (f a) = k) -> length (flat_map f l) = length l * k.
Proof.
  intros Hf. induction l as [| a l IH]; [reflexivity |].
  cbn. rewrite length_app, Hf, IH. reflexivity.
Qed.

End ArgmaxRange.

(** X6.  [get_pred] on an array of any rank.  It raises [AxisError] on an
    array with fewer than two axes and [ValueError] when axis 1 is empty.
    Otherwise it returns a well-formed integer array whose shape is the
    shape of the logits without axis 1, and every entry of it is a valid
    index into axis 1: it lies between 0 and the length of that axis,
    whatever the values compared (NaN included). *)
Theorem get_pred_shape_and_range `{SC : Scalar} (logits : ndarray scalar) :
  match get_pred logits with
  | Ok preds =>
      exists d0 d1 rest,
        shape logits = d0 :: d1 :: rest /\
        0 < d1 /\
        shape preds = d0 :: rest /\
        wf_array preds /\
        Forall (fun p => (0 <= p < Z.of_nat d1)%Z) (data preds)
  | Raise e =>
      (e = AxisError /\ length (shape logits) < 2) \/
      (e = ValueError /\ exists d0 rest, shape logits = d0 :: 0 :: rest)
  end.
Proof.
  unfold get_pred, np_argmax_axis1.
  destruct (shape logits) as [| d0 [| d1 rest]] eqn:Hshape.
  - left. split; [reflexivity | cbn; lia].
  - left. split; [reflexivity | cbn; lia].
  - destruct (Nat.eqb_spec d1 0) as [-> | Hd1].
    + right. split; [reflexivity |]. exists d0, rest. reflexivity.
    + exists d0, d1, rest. cbn [shape data].
      split; [reflexivity |]. split; [lia |]. split; [reflexivity |].
      split.
      * unfold wf_array. cbn [shape data].
        rewrite length_flat_map_const with (k := numel rest).
        -- rewrite length_seq. reflexivity.
        -- intros i. rewrite length_map, length_seq. reflexivity.
      * apply Forall_forall. intros p Hp.
        apply in_flat_map in Hp. destruct Hp as (i & _ & Hp).
        apply in_map_iff in Hp. destruct Hp as (k & <- & _).
        assert (Hne : lane logits d1 (numel rest) i k <> []).
        { intros Hnil. apply (f_equal (@length _)) in Hnil.
          rewrite lane_length in Hnil. cbn in Hnil. lia. }
        pose proof (argmax_list_bound Hne) as Hb. rewrite lane_length in Hb. lia.
Qed.

(** ** How [train] can fail *)

Section TrainFailures.
Context `{SC : Scalar} {RT : TrainingRuntime}.

Lemma make_forward_inputs_raises (features : ndarray scalar) (target : ndarray Z) (e : exn) :
  make_forward_inputs features target = Raise e ->
  e = TypeError \/ e = TorchRuntimeError.
Proof.
  unfold make_forward_inputs.
  destruct (tensor_len features) as [n | e0] eqn:Hlen.
  - unfold reshape. destruct (numel [n; 784] =? length (data features)).
    + discriminate.
    + intros H. injection H as <-. right. reflexivity.
  - unfold tensor_len in Hlen. destruct (shape features); [| discriminate].
    injection Hlen as <-. intros H. injection H as <-. left. reflexivity.
Qed.

(** A loop of [train] that raises was stopped by a batch that does not
    reshape or by a failed call of the runtime. *)
Lemma train_loop_raises (items : list (nat * batch)) (acc : list scalar) (s : rt_state) :
  forall e,
    result_of (for_each items acc train_step) s = Raise e ->
    (exists features target,
        In (features, target) (map snd items) /\
        make_forward_inputs features target = Raise e) \/
    (exists re c pre,
        e = RuntimeFailure re /\
        is_training_call c = true /\
        trace_of (for_each items acc train_step) s = pre ++ [failed_event c re]).
Proof.
  unfold result_of, trace_of.
  apply (for_each_run_ind train_step
           (fun xs _ _ run =>
              forall e,
                fst (fst run) = Raise e ->
                (exists features target,
                    In (features, target) (map snd xs) /\
                    make_forward_inputs features target = Raise e) \/
                (exists re c pre,
                    e = RuntimeFailure re /\
                    is_training_call c = true /\
                    snd run = pre ++ [failed_event c re]))).
  - intros acc0 s0 e H. discriminate.
  - intros [i [features target]] xs acc0 s0 e s1 t1 Hbody e' He'.
    cbn [fst snd] in *. injection He' as <-.
    pose proof (train_step_cases acc0 i features target s0) as Hcases.
    cbv zeta in Hcases.
    destruct Hcases as
        [(e0 & Hx & Heq)
        | [(x & s1' & re & _ & _ & Heq)
          | [(x & s1' & loss & logits & s2 & re & _ & _ & _ & Heq)
            | [(x & s1' & loss & logits & s2 & s3 & re & _ & _ & _ & _ & Heq)
              | (x & s1' & loss & logits & s2 & s3 & _ & _ & _ & _ & Heq)]]]];
      pose proof (eq_trans (eq_sym Hbody) Heq) as Heq'; inversion Heq'; subst.
    + left. exists features, target. split; [left; reflexivity | exact Hx].
    + right. exists re, (CModelCall x), []. repeat split.
    + right. exists re, COptimizerStep, [ok_event (CModelCall x) (RForward loss logits)].
      repeat split.
    + right. exists re, CResetGrad,
        [ok_event (CModelCall x) (RForward loss logits); ok_event COptimizerStep RNone].
      repeat split.
  - intros [i [features target]] xs acc0 s0 acc' s1 t1 r s2 t2 Hbody _ IH e He.
    cbn [fst snd] in *.
    destruct (IH e He) as [(f & t & Hin & Hraise) | (re & c & pre & -> & Hc & ->)].
    + left. exists f, t. split; [right; exact Hin | exact Hraise].
    + right. exists re, c, (t1 ++ pre). rewrite app_assoc. repeat split. exact Hc.
Qed.

End TrainFailures.

(** X7.  The only ways [train] can fail.  If [train] raises, then either
    the training loader is empty and the error is the [ZeroDivisionError]
    of the mean; or some batch of the loader cannot be brought to the shape
    (len, 784) and the error is the one of that reshape ([TypeError] for a
    0-d tensor, else the reshape error); or a call of the runtime (the
    module, the optimizer step or the gradient reset) failed, that call is
    the last of the run and the error is its error.  In particular the
    loop itself never raises an index or key error. *)
Theorem train_raises_only `{SC : Scalar} {RT : TrainingRuntime}
        (ld : loaders) (epoch : Z) (s : rt_state) (e : exn) :
  result_of (train ld epoch) s = Raise e ->
  (e = ZeroDivisionError /\ train_loader ld = []) \/
  ((e = TypeError \/ e = TorchRuntimeError) /\
   exists features target,
     In (features, target) (train_loader ld) /\
     make_forward_inputs features target = Raise e) \/
  (exists re c pre,
      e = RuntimeFailure re /\
      is_training_call c = true /\
      trace_of (train ld epoch) s = pre ++ [failed_event c re]).
Proof.
  unfold result_of at 1, trace_of. rewrite train_run. cbv zeta.
  pose proof (train_loop_raises (enumerate (train_loader ld)) [] (module_train s)) as Hloop.
  unfold enumerate in Hloop. rewrite map_snd_enumerate_from in Hloop.
  fold (enumerate (train_loader ld)) in Hloop. fold (train_loop ld) in Hloop.
  destruct (train_loop_losses (enumerate (train_loader ld)) [] (module_train s))
    as [_ Hlosses].
  fold (train_loop ld) in Hlosses.
  destruct (result_of (train_loop ld) (module_train s)) as [losses | e0] eqn:Hres.
  - destruct (Hlosses losses eq_refl) as [Hl Hlen].
    destruct (mean_loss losses) as [v | e0] eqn:Hmean; cbn [fst snd]; [discriminate |].
    intros H. injection H as <-.
    destruct losses as [| x losses]; [| rewrite mean_loss_cons in Hmean; discriminate].
    rewrite mean_loss_nil in Hmean. injection Hmean as <-.
    left. split; [reflexivity |].
    cbn [app] in Hl. rewrite <- Hl in Hlen. cbn in Hlen.
    unfold enumerate in Hlen. rewrite enumerate_from_length in Hlen.
    destruct (train_loader ld); [reflexivity | discriminate].
  - cbn [fst snd]. intros H. injection H as <-.
    destruct (Hloop e0 eq_refl) as [(f & t & Hin & Hraise) | (re & c & pre & -> & Hc & Htr)].
    + right. left. split; [exact (make_forward_inputs_raises _ _ Hraise) |].
      exists f, t. split; assumption.
    + right. right. exists re, c, (ok_event CModelTrain RNone :: pre).
      rewrite Htr. repeat split. exact Hc.
Qed.

Lemma train_raises_only_witness :
  exists re c pre,
    RuntimeFailure ExecutionError = RuntimeFailure re /\
    is_training_call c = true /\
    trace_of (@train ZScalar Demo.failing_runtime Demo.demo_loaders 0%Z) Demo.demo_state
    = pre ++ [failed_event c re].
Proof.
  destruct (@train_raises_only ZScalar Demo.failing_runtime Demo.demo_loaders 0%Z
              Demo.demo_state (RuntimeFailure ExecutionError) eq_refl)
    as [[H _] | [[[H | H] _] | H]]; try discriminate H.
  exact H.
Defined.

(** ** The epoch loop as a whole *)

Section EpochLoopLines.
Context `{SC : Scalar} {RT : TrainingRuntime} {ML : MetricLibrary}.
Variable ld : loaders.

Lemma printed_app (t1 t2 : list event) : printed (t1 ++ t2) = printed t1 ++ printed t2.
Proof. apply flat_map_app. Qed.

Lemma printed_quiet (tr : list event) : quiet tr -> printed tr = [].
Proof.
  induction 1 as [| e tr He _ IH]; [reflexivity |].
  cbn. unfold line_of. destruct (ev_call e); try discriminate He; exact IH.
Qed.

(** What one epoch prints: both lines when it completes; nothing, or the
    line of [train] alone, when it does not. *)
Lemma epoch_body_printed (k : nat) (s : rt_state) :
  (result_of (epoch_body ld tt k) s = Ok tt /\
   printed (trace_of (epoch_body ld tt k) s)
   = [TrainLine (Z.of_nat k + 1); TestLine (Z.of_nat k + 1)]) \/
  (result_of (epoch_body ld tt k) s <> Ok tt /\
   (printed (trace_of (epoch_body ld tt k) s) = [] \/
    printed (trace_of (epoch_body ld tt k) s) = [TrainLine (Z.of_nat k + 1)])).
Proof.
  unfold epoch_body. rewrite bind_trace, bind_result.
  destruct (train_trace_shape ld (Z.of_nat k) s)
    as [[Hfail Hq] | [Hok (body & Hq & Htr & _ & _)]].
  - right. destruct (result_of (train ld (Z.of_nat k)) s) as [[] | e];
      [contradiction |].
    split; [discriminate |]. left. rewrite app_nil_r. apply printed_quiet, Hq.
  - rewrite Hok, Htr, !printed_app, (printed_quiet Hq). cbn [app].
    destruct (test_trace_shape ld (Z.of_nat k) (final_state (train ld (Z.of_nat k)) s))
      as [[Hfail' Hq'] | [Hok' (body' & acc' & Hq' & Htr' & _ & _)]].
    + right. split; [exact Hfail' |]. right.
      rewrite (printed_quiet Hq'). reflexivity.
    + left. split; [exact Hok' |].
      rewrite Htr', printed_app, (printed_quiet Hq'). reflexivity.
Qed.

Lemma epochs_printed (epochs : list nat) (s : rt_state) :
  is_prefix (printed (trace_of (for_each epochs tt (epoch_body ld)) s))
            (epoch_lines epochs) /\
  (result_of (for_each epochs tt (epoch_body ld)) s = Ok tt ->
   printed (trace_of (for_each epochs tt (epoch_body ld)) s) = epoch_lines epochs).
Proof.
  unfold trace_of, result_of.
  apply (for_each_run_ind (epoch_body ld)
           (fun xs _ _ run =>
              is_prefix (printed (snd run)) (epoch_lines xs) /\
              (fst (fst run) = Ok tt -> printed (snd run) = epoch_lines xs))).
  - intros [] s0. cbn. split; [apply is_prefix_nil | reflexivity].
  - intros k xs [] s0 e s1 t1 Hbody. cbn [fst snd].
    split; [| discriminate].
    destruct (epoch_body_printed k s0) as [[Hok _] | [_ Hp]];
      unfold result_of, trace_of in *; rewrite Hbody in *; cbn [fst snd] in *;
      [discriminate |].
    destruct Hp as [-> | ->]; cbn [epoch_lines flat_map app].
    + apply is_prefix_nil.
    + apply is_prefix_cons, is_prefix_nil.
  - intros k xs [] s0 [] s1 t1 r s2 t2 Hbody _ [Hpre Heq]. cbn [fst snd] in *.
    destruct (epoch_body_printed k s0) as [[_ Hp] | [Hfail _]];
      unfold result_of, trace_of in *; rewrite Hbody in *; cbn [fst snd] in *;
      [| contradiction].
    rewrite printed_app, Hp. cbn [epoch_lines flat_map app].
    split.
    + do 2 apply is_prefix_cons. exact Hpre.
    + intros Hok. rewrite (Heq Hok). reflexivity.
Qed.

Lemma forward_calls_complete (bs : list batch) (xs : list forward_inputs)
      (tr : list event) :
  all_forward_inputs bs = Ok xs ->
  submitted_in_order bs True tr ->
  forward_calls tr = xs.
Proof.
  intros Hxs (k & _ & Hin & Hall).
  rewrite (Hall I), firstn_all in Hin. congruence.
Qed.

Lemma epoch_body_forward_calls (xs : list forward_inputs) (k : nat) (s : rt_state) :
  all_forward_inputs (train_loader ld) = Ok xs ->
  result_of (epoch_body ld tt k) s = Ok tt ->
  forward_calls (trace_of (epoch_body ld tt k) s) = xs ++ xs.
Proof.
  intros Hxs. unfold epoch_body. rewrite bind_trace, bind_result.
  destruct (result_of (train ld (Z.of_nat k)) s) as [[] | e] eqn:Htrain; [| discriminate].
  intros Htest. rewrite forward_calls_app. f_equal.
  - apply (forward_calls_complete Hxs).
    destruct (train_inputs ld (Z.of_nat k) s) as (n & Hn & Hin & Hall).
    exists n. repeat split; auto.
  - apply (forward_calls_complete Hxs).
    destruct (test_inputs ld (Z.of_nat k) (final_state (train ld (Z.of_nat k)) s))
      as (n & Hn & Hin & Hall).
    exists n. repeat split; auto.
Qed.

Lemma epochs_forward_calls (xs : list forward_inputs) (epochs : list nat) (s : rt_state) :
  all_forward_inputs (train_loader ld) = Ok xs ->
  result_of (for_each epochs tt (epoch_body ld)) s = Ok tt ->
  forward_calls (trace_of (for_each epochs tt (epoch_body ld)) s)
  = concat (repeat (xs ++ xs) (length epochs)).
Proof.
  intros Hxs. unfold trace_of, result_of.
  apply (for_each_run_ind (epoch_body ld)
           (fun es _ _ run =>
              fst (fst run) = Ok tt ->
              forward_calls (snd run) = concat (repeat (xs ++ xs) (length es)))).
  - intros [] s0 _. reflexivity.
  - intros k es [] s0 e s1 t1 _ H. discriminate.
  - intros k es [] s0 [] s1 t1 r s2 t2 Hbody _ IH Hok. cbn [fst snd] in *.
    rewrite forward_calls_app, (IH Hok). cbn [length repeat concat]. f_equal.
    pose proof (epoch_body_forward_calls k s0 Hxs) as Hk.
    unfold result_of, trace_of in Hk. rewrite Hbody in Hk. apply Hk. reflexivity.
Qed.

End EpochLoopLines.

(** X8.  What the epoch loop prints.  Whatever happens, the lines printed
    by [for epoch in range(n): train(epoch); test(epoch)] are a beginning
    of: train line of epoch 1, test line of epoch 1, train line of epoch 2,
    and so on up to the test line of epoch [n] (epochs are reported
    counting from 1); and when the loop completes they are exactly those
    2 n lines, in that order. *)
Theorem epoch_loop_prints_in_order `{SC : Scalar} {RT : TrainingRuntime}
        {ML : MetricLibrary} (ld : loaders) (n : nat) (s : rt_state) :
  is_prefix (printed (trace_of (run_epochs ld n) s)) (epoch_lines (seq 0 n)) /\
  (result_of (run_epochs ld n) s = Ok tt ->
   printed (trace_of (run_epochs ld n) s) = epoch_lines (seq 0 n) /\
   length (printed (trace_of (run_epochs ld n) s)) = 2 * n).
Proof.
  destruct (epochs_printed ld (seq 0 n) s) as [Hpre Heq].
  split; [exact Hpre |].
  intros Hok. split; [exact (Heq Hok) |].
  unfold run_epochs. rewrite (Heq Hok). unfold epoch_lines.
  rewrite length_flat_map_const with (k := 2); [rewrite length_seq; lia | reflexivity].
Qed.

Lemma epoch_loop_prints_in_order_witness :
  printed (trace_of (@run_epochs ZScalar Demo.demo_runtime Demo.demo_metric
                       Demo.demo_loaders 2) Demo.demo_state)
  = [TrainLine 1; TestLine 1; TrainLine 2; TestLine 2].
Proof.
  apply (@epoch_loop_prints_in_order ZScalar Demo.demo_runtime Demo.demo_metric
           Demo.demo_loaders 2 Demo.demo_state).
  reflexivity.
Defined.

(** X9.  Each epoch goes over the training data twice.  When the batches
    of the training loader prepare to the inputs [xs] and the epoch loop
    over [n] epochs completes, the module has been called, in order, on
    [xs] and then on [xs] again in every epoch: once by [train], once by
    [test]; that is 2 n calls per batch. *)
Theorem epoch_loop_passes `{SC : Scalar} {RT : TrainingRuntime} {ML : MetricLibrary}
        (ld : loaders) (n : nat) (s : rt_state) (xs : list forward_inputs) :
  all_forward_inputs (train_loader ld) = Ok xs ->
  result_of (run_epochs ld n) s = Ok tt ->
  forward_calls (trace_of (run_epochs ld n) s) = concat (repeat (xs ++ xs) n) /\
  length (forward_calls (trace_of (run_epochs ld n) s))
  = 2 * n * length (train_loader ld).
Proof.
  intros Hxs Hok.
  pose proof (epochs_forward_calls ld (seq 0 n) s Hxs Hok) as H.
  rewrite length_seq in H. fold (run_epochs ld n) in H.
  split; [exact H |].
  rewrite H.
  assert (Hlen : length xs = length (train_loader ld)).
  { clear -Hxs. revert xs Hxs.
    induction (train_loader ld) as [| [f t] bs IH]; intros xs Hxs; cbn in Hxs.
    - injection Hxs as <-. reflexivity.
    - destruct (make_forward_inputs f t); [| discriminate].
      destruct (all_forward_inputs bs) as [ys |]; [| discriminate].
      injection Hxs as <-. cbn. f_equal. apply IH. reflexivity. }
  rewrite <- Hlen. clear.
  induction n as [| n IH]; [reflexivity |].
  cbn [repeat concat]. rewrite !length_app, IH. lia.
Qed.

Lemma epoch_loop_passes_witness :
  length (forward_calls (trace_of (@run_epochs ZScalar Demo.demo_runtime Demo.demo_metric
                                     Demo.demo_loaders 1) Demo.demo_state))
  = 2 * 1 * length (train_loader Demo.demo_loaders).
Proof.
  eapply (@epoch_loop_passes ZScalar Demo.demo_runtime Demo.demo_metric
            Demo.demo_loaders 1 Demo.demo_state).
  - reflexivity.
  - reflexivity.
Defined.

(** ** Training on the contract runtime *)

Section TrainMode.
Context `{SC : Scalar}.
Variables Ckpt Grad : Type.
Variable art : artifacts Ckpt Grad.

Let RT : TrainingRuntime := SpecRuntime art.
#[local] Existing Instance RT.

Lemma train_call_frame (s s1 : spec_state Ckpt Grad) (x : forward_inputs)
      (r : rt_result (scalar * ndarray scalar)) :
  training s = true ->
  spec_module_call art s x = (s1, r) ->
  training s1 = true /\ files s1 = files s /\ checkpoint s1 = checkpoint s /\
  forall loss logits,
    r = Returned (loss, logits) ->
    exists g, train_graph art (checkpoint s) x = Returned (loss, logits, g).
Proof.
  intros Hmode. unfold spec_module_call. rewrite Hmode.
  destruct (train_graph art (checkpoint s) x) as [[[loss logits] g] | e];
    intros H; injection H as <- <-; cbn [training files checkpoint].
  - repeat split; auto. intros l y Hr. injection Hr as <- <-. exists g. reflexivity.
  - repeat split; auto. discriminate.
Qed.

Lemma optimizer_step_frame (s s1 : spec_state Ckpt Grad) (r : rt_result unit) :
  spec_optimizer_step art s = (s1, r) ->
  training s1 = training s /\ files s1 = files s /\ gradients s1 = gradients s.
Proof.
  unfold spec_optimizer_step.
  destruct (optimizer_graph art (checkpoint s) (gradients s));
    intros H; injection H as <- <-; repeat split.
Qed.

Lemma reset_grad_frame (s s1 : spec_state Ckpt Grad) (r : rt_result unit) :
  spec_reset_grad art s = (s1, r) ->
  training s1 = training s /\ files s1 = files s /\ checkpoint s1 = checkpoint s /\
  gradients s1 = zero_grad art.
Proof. unfold spec_reset_grad. intros H. injection H as <- <-. repeat split. Qed.

Lemma train_loop_mode (items : list (nat * batch)) (acc : list scalar)
      (s : spec_state Ckpt Grad) :
  training s = true ->
  training (final_state (for_each items acc train_step) s) = true /\
  files (final_state (for_each items acc train_step) s) = files s /\
  Forall (from_train_graph art) (trace_of (for_each items acc train_step) s) /\
  (forall a, result_of (for_each items acc train_step) s = Ok a ->
             items <> [] ->
             gradients (final_state (for_each items acc train_step) s) = zero_grad art).
Proof.
  unfold trace_of, final_state, result_of.
  apply (@for_each_run_ind SC RT _ _ train_step
           (fun xs _ (s0 : @rt_state SC RT) run =>
              training s0 = true ->
              training (snd (fst run)) = true /\
              files (snd (fst run)) = files s0 /\
              Forall (from_train_graph art) (snd run) /\
              (forall a, fst (fst run) = Ok a -> xs <> [] ->
                         gradients (snd (fst run)) = zero_grad art))).
  - intros acc0 s0 Hmode. cbn. repeat split; auto. congruence.
  - intros [i [features target]] xs acc0 s0 e s1 t1 Hbody Hmode. cbn [fst snd].
    pose proof (@train_step_cases SC RT acc0 i features target s0) as Hcases.
    cbv zeta in Hcases.
    destruct Hcases as
        [(e0 & _ & Heq)
        | [(x & s1' & re & _ & Hc & Heq)
          | [(x & s1' & loss & logits & s2 & re & _ & Hc & Hs & Heq)
            | [(x & s1' & loss & logits & s2 & s3 & re & _ & Hc & Hs & Hr & Heq)
              | (x & s1' & loss & logits & s2 & s3 & _ & _ & _ & _ & Heq)]]]];
      pose proof (eq_trans (eq_sym Hbody) Heq) as Heq'; inversion Heq'; subst.
    + repeat split; auto. discriminate.
    + destruct (@train_call_frame _ _ _ _ Hmode Hc) as (Hm & Hf & _ & _).
      repeat split; auto; [| discriminate].
      constructor; [| constructor]. intros x0 l y H. discriminate.
    + destruct (@train_call_frame _ _ _ _ Hmode Hc) as (Hm & Hf & _ & Hg).
      destruct (@optimizer_step_frame _ _ _ Hs) as (Hm' & Hf' & _).
      split; [congruence |]. split; [congruence |]. split; [| discriminate].
      constructor; [| constructor; [| constructor]].
      * intros x0 l y H. unfold ok_event in H. injection H as <- <- <-.
        destruct (Hg _ _ eq_refl) as [g Hgraph]. eauto.
      * intros x0 l y H. discriminate.
    + destruct (@train_call_frame _ _ _ _ Hmode Hc) as (Hm & Hf & _ & Hg).
      destruct (@optimizer_step_frame _ _ _ Hs) as (Hm' & Hf' & _).
      destruct (@reset_grad_frame _ _ _ Hr) as (Hm'' & Hf'' & _ & _).
      split; [congruence |]. split; [congruence |]. split; [| discriminate].
      constructor; [| constructor; [| constructor; [| constructor]]].
      * intros x0 l y H. unfold ok_event in H. injection H as <- <- <-.
        destruct (Hg _ _ eq_refl) as [g Hgraph]. eauto.
      * intros x0 l y H. discriminate.
      * intros x0 l y H. discriminate.
  - intros [i [features target]] xs acc0 s0 acc' s1 t1 r s2 t2 Hbody Hrest IH Hmode.
    cbn [fst snd] in *.
    pose proof (@train_step_cases SC RT acc0 i features target s0) as Hcases.
    cbv zeta in Hcases.
    destruct Hcases as
        [(e0 & _ & Heq)
        | [(x & s1' & re & _ & Hc & Heq)
          | [(x & s1' & loss & logits & s2' & re & _ & Hc & Hs & Heq)
            | [(x & s1' & loss & logits & s2' & s3 & re & _ & Hc & Hs & Hr & Heq)
              | (x & s1' & loss & logits & s2' & s3 & _ & Hc & Hs & Hr & Heq)]]]];
      pose proof (eq_trans (eq_sym Hbody) Heq) as Heq'; inversion Heq'; subst.
    destruct (@train_call_frame _ _ _ _ Hmode Hc) as (Hm & Hf & _ & Hg).
    destruct (@optimizer_step_frame _ _ _ Hs) as (Hm' & Hf' & _).
    destruct (@reset_grad_frame _ _ _ Hr) as (Hm'' & Hf'' & _ & Hzero).
    assert (Hmode3 : training s3 = true) by congruence.
    destruct (IH Hmode3) as (Hfm & Hff & Hall & Hgrad).
    split; [exact Hfm |]. split; [congruence |]. split.
    + constructor; [| constructor; [| constructor; [| exact Hall]]].
      * intros x0 l y H. unfold ok_event in H. injection H as <- <- <-.
        destruct (Hg _ _ eq_refl) as [g Hgraph]. eauto.
      * intros x0 l y H. discriminate.
      * intros x0 l y H. discriminate.
    + intros a Ha _. destruct xs as [| item xs'].
      * cbn in Hrest. unfold ret in Hrest. injection Hrest as _ <- _. exact Hzero.
      * apply (Hgrad a Ha). discriminate.
Qed.

End TrainMode.

(** X10.  On the runtime of the capability contract, [train] trains
    whatever mode it is entered in (after [test] the module is in eval
    mode): every forward pass that returns is a pass of the training
    graph, and the module is left in train mode.  [train] writes no file;
    and when it completes, the gradients it accumulated have been reset:
    no gradient is carried into the next call. *)
Theorem train_runs_training_graph `{SC : Scalar} (Ckpt Grad : Type)
        (art : artifacts Ckpt Grad) (ld : loaders) (epoch : Z)
        (s : spec_state Ckpt Grad) :
  let run := @train SC (SpecRuntime art) ld epoch in
  training (final_state run s) = true /\
  files (final_state run s) = files s /\
  Forall (from_train_graph art) (trace_of run s) /\
  (result_of run s = Ok tt -> gradients (final_state run s) = zero_grad art).
Proof.
  cbv zeta. unfold final_state, trace_of, result_of. rewrite train_run. cbv zeta.
  destruct (@train_loop_mode SC Ckpt Grad art (enumerate (train_loader ld)) []
              (spec_set_mode true s) eq_refl) as (Hmode & Hfiles & Hall & Hgrad).
  change (@module_train SC (SpecRuntime art) s) with (spec_set_mode true s).
  fold (@train_loop SC (SpecRuntime art) ld) in Hmode, Hfiles, Hall, Hgrad.
  assert (Hev : from_train_graph art (ok_event CModelTrain RNone))
    by (intros x l y H; discriminate).
  destruct (result_of (@train_loop SC (SpecRuntime art) ld)
                      (spec_set_mode true s)) as [losses | e] eqn:Hres.
  - destruct (mean_loss losses) as [v | e] eqn:Hmean; cbn [fst snd].
    + split; [exact Hmode |]. split; [exact Hfiles |]. split.
      * constructor; [exact Hev |]. apply Forall_app. split; [exact Hall |].
        constructor; [| constructor]. intros x l y H. discriminate.
      * intros _. apply (Hgrad losses eq_refl).
        destruct (train_loader ld) as [| b bs] eqn:Hld; [| discriminate].
        unfold train_loop in Hres. rewrite Hld in Hres.
        cbn in Hres. unfold result_of, ret in Hres. cbn in Hres.
        injection Hres as <-. rewrite mean_loss_nil in Hmean. discriminate.
    + split; [exact Hmode |]. split; [exact Hfiles |]. split; [| discriminate].
      constructor; [exact Hev | exact Hall].
  - cbn [fst snd]. split; [exact Hmode |]. split; [exact Hfiles |].
    split; [| discriminate]. constructor; [exact Hev | exact Hall].
Qed.

Lemma train_runs_training_graph_witness :
  gradients (final_state (@train ZScalar Demo.demo_runtime Demo.demo_loaders 0%Z)
                         Demo.demo_state) = 0%Z.
Proof.
  apply (@train_runs_training_graph ZScalar Z Z Demo.demo_artifacts Demo.demo_loaders
           0%Z Demo.demo_state).
  reflexivity.
Defined.

(** ** Names of the graph's inputs and outputs *)

Lemma str_of_nat_inj (a b : nat) : str_of_nat a = str_of_nat b -> a = b.
Proof.
  unfold str_of_nat. intros H.
  apply (f_equal DecimalString.NilEmpty.uint_of_string) in H.
  rewrite !DecimalString.NilEmpty.usu in H. injection H as H.
  apply DecimalNat.Unsigned.to_uint_inj. exact H.
Qed.

Lemma append_inj_l (p a b : string) : (p ++ a = p ++ b)%string -> a = b.
Proof.
  induction p as [| c p IH]; cbn; intros H; [exact H |].
  injection H as H. apply IH. exact H.
Qed.

Lemma tensor_name_inj (prefix : string) (i j : nat) :
  tensor_name prefix i = tensor_name prefix j -> i = j.
Proof. unfold tensor_name. intros H. apply append_inj_l in H. apply str_of_nat_inj, H. Qed.

Lemma input_is_not_output (i j : nat) :
  tensor_name "input-" i <> tensor_name "output-" j.
Proof. unfold tensor_name. cbn. discriminate. Qed.

Section Dicts.
Context {K V : Type}.
Variable eqb : K -> K -> bool.
Hypothesis eqb_eq : forall a b, eqb a b = true <-> a = b.

Lemma eqb_same (a : K) : eqb a a = true.
Proof. apply eqb_eq. reflexivity. Qed.

Lemma eqb_other (a b : K) : a <> b -> eqb a b = false.
Proof.
  intros Hne. destruct (eqb a b) eqn:H; [| reflexivity].
  apply eqb_eq in H. contradiction.
Qed.

(** Setting a key the dict does not hold appends the item. *)
Lemma dict_set_fresh (d : list (K * V)) (k : K) (v : V) :
  ~ In k (dict_keys d) -> dict_set eqb d k v = d ++ [(k, v)].
Proof.
  induction d as [| [k' v'] d IH]; cbn; intros Hfresh; [reflexivity |].
  rewrite eqb_other by (intros ->; apply Hfresh; left; reflexivity).
  rewrite IH by (intros Hin; apply Hfresh; right; exact Hin). reflexivity.
Qed.

(** Setting the key of the last item replaces its value. *)
Lemma dict_set_last (d : list (K * V)) (k : K) (v v' : V) :
  ~ In k (dict_keys d) -> dict_set eqb (d ++ [(k, v)]) k v' = d ++ [(k, v')].
Proof.
  induction d as [| [k0 v0] d IH]; cbn; intros Hfresh.
  - rewrite eqb_same. reflexivity.
  - rewrite eqb_other by (intros ->; apply Hfresh; left; reflexivity).
    rewrite IH by (intros Hin; apply Hfresh; right; exact Hin). reflexivity.
Qed.

Lemma dict_lookup_last (d : list (K * V)) (k : K) (v : V) :
  ~ In k (dict_keys d) -> dict_lookup eqb (d ++ [(k, v)]) k = Some v.
Proof.
  induction d as [| [k0 v0] d IH]; cbn; intros Hfresh.
  - rewrite eqb_same. reflexivity.
  - rewrite eqb_other by (intros ->; apply Hfresh; left; reflexivity).
    apply IH. intros Hin. apply Hfresh. right. exact Hin.
Qed.

Lemma dict_lookup_absent (d : list (K * V)) (k : K) :
  ~ In k (dict_keys d) -> dict_lookup eqb d k = None.
Proof.
  induction d as [| [k0 v0] d IH]; cbn; intros Hfresh; [reflexivity |].
  rewrite eqb_other by (intros ->; apply Hfresh; left; reflexivity).
  apply IH. intros Hin. apply Hfresh. right. exact Hin.
Qed.

(** In a dict whose keys are all different, an item is found under its
    key. *)
Lemma dict_lookup_in (d : list (K * V)) (k : K) (v : V) :
  NoDup (dict_keys d) -> In (k, v) d -> dict_lookup eqb d k = Some v.
Proof.
  induction d as [| [k0 v0] d IH]; cbn; intros Hnd Hin; [contradiction |].
  inversion Hnd as [| ? ? Hfresh Hnd']; subst.
  destruct Hin as [Heq | Hin].
  - injection Heq as -> ->. rewrite eqb_same. reflexivity.
  - rewrite eqb_other.
    + apply IH; assumption.
    + intros ->. apply Hfresh. apply (in_map fst) in Hin. exact Hin.
Qed.

End Dicts.

Lemma nat_eqb_eq (a b : nat) : Nat.eqb a b = true <-> a = b.
Proof. apply Nat.eqb_eq. Qed.

Lemma string_eqb_eq (a b : string) : String.eqb a b = true <-> a = b.
Proof. apply String.eqb_eq. Qed.

Lemma axes_of_keys (name : string) (rank : nat) :
  dict_keys (axes_of name rank) = seq 0 rank.
Proof.
  unfold dict_keys, axes_of. rewrite map_map. cbn [fst]. apply map_id.
Qed.

Lemma axes_of_succ (name : string) (rank : nat) :
  axes_of name (S rank)
  = axes_of name rank ++ [(rank, (name ++ "_dim" ++ str_of_nat rank)%string)].
Proof. unfold axes_of. rewrite seq_S, map_app. reflexivity. Qed.

(** The inner loop, run on the axes [a], [a+1], ... of the tensor named
    last, extends its dict by one item per axis. *)
Lemma update_axes_run (name : string) (d : dynamic_axes_dict) (n : nat) :
  ~ In name (dict_keys d) ->
  forall a,
    update_axes (d ++ [(name, axes_of name a)]) name (seq a n)
    = Ok (d ++ [(name, axes_of name (a + n))]).
Proof.
  intros Hfresh. induction n as [| n IH]; intros a; cbn [seq update_axes].
  - rewrite Nat.add_0_r. reflexivity.
  - unfold update_axis.
    rewrite (@dict_lookup_last _ _ String.eqb string_eqb_eq _ _ _ Hfresh).
    rewrite (@dict_set_last _ _ String.eqb string_eqb_eq _ _ _ _ Hfresh).
    rewrite (@dict_set_fresh _ _ Nat.eqb nat_eqb_eq).
    + rewrite <- axes_of_succ, IH. replace (a + S n) with (S a + n) by lia. reflexivity.
    + rewrite axes_of_keys, in_seq. lia.
Qed.

Section NamingLoops.
Context `{SC : Scalar}.

Lemma name_tensor_run (prefix : string) (names : list string) (d : dynamic_axes_dict)
      (i : nat) (t : ndarray scalar) :
  ~ In (tensor_name prefix i) (dict_keys d) ->
  name_tensor prefix (names, d) (i, t)
  = Ok (names ++ [tensor_name prefix i], d ++ [entry_for prefix (i, t)]).
Proof.
  intros Hfresh. unfold name_tensor. fold (tensor_name prefix i).
  rewrite (@dict_set_fresh _ _ String.eqb string_eqb_eq _ _ _ Hfresh).
  change (@nil (nat * string)) with (axes_of (tensor_name prefix i) 0).
  rewrite (@update_axes_run _ _ _ Hfresh). reflexivity.
Qed.

Lemma dict_keys_app {K V} (d1 d2 : list (K * V)) :
  dict_keys (d1 ++ d2) = dict_keys d1 ++ dict_keys d2.
Proof. apply map_app. Qed.

(** The outer loop, started at index [i] on a dict that holds none of the
    names it is going to give. *)
Lemma name_tensors_run (prefix : string) (ts : list (ndarray scalar)) :
  forall (i : nat) (names : list string) (d : dynamic_axes_dict),
    (forall j, i <= j -> ~ In (tensor_name prefix j) (dict_keys d)) ->
    name_tensors prefix (enumerate_from i ts) (names, d)
    = Ok (names ++ map (tensor_name prefix) (seq i (length ts)),
          d ++ map (entry_for prefix) (enumerate_from i ts)).
Proof.
  induction ts as [| t ts IH]; intros i names d Hfresh; cbn [enumerate_from name_tensors].
  - cbn. rewrite !app_nil_r. reflexivity.
  - rewrite name_tensor_run by (apply Hfresh; lia).
    rewrite IH.
    + cbn [length seq map]. rewrite <- !app_assoc. reflexivity.
    + intros j Hj. rewrite dict_keys_app, in_app_iff. intros [Hin | Hin].
      * apply (Hfresh j); [lia | exact Hin].
      * cbn in Hin. destruct Hin as [Heq | []].
        apply tensor_name_inj in Heq. lia.
Qed.

Lemma entries_keys (prefix : string) (ts : list (ndarray scalar)) :
  forall i,
    dict_keys (map (entry_for prefix) (enumerate_from i ts))
    = map (tensor_name prefix) (seq i (length ts)).
Proof.
  induction ts as [| t ts IH]; intros i; cbn; [reflexivity |].
  f_equal. apply IH.
Qed.

Lemma tensor_names_nodup (prefix : string) (l : list nat) :
  NoDup l -> NoDup (map (tensor_name prefix) l).
Proof.
  induction 1 as [| i l Hfresh Hnd IH]; cbn; constructor; [| exact IH].
  rewrite in_map_iff. intros [j [Heq Hin]].
  apply tensor_name_inj in Heq. subst j. contradiction.
Qed.

Lemma names_for_nodup (prefix : string) (ts : list (ndarray scalar)) :
  NoDup (names_for prefix ts).
Proof. apply tensor_names_nodup, seq_NoDup. Qed.

End NamingLoops.

Section NamingCell.
Context `{SC : Scalar}.

(** Both loops run to their end, and the cell's three variables have a
    closed form. *)
Lemma naming_cell_run (ins : list (ndarray scalar)) (outs : model_result) :
  naming_cell ins outs
  = Ok {| input_names := names_for "input-" ins;
          output_names := names_for "output-" (as_tensor_list outs);
          dynamic_axes := entries_for "input-" ins
                          ++ entries_for "output-" (as_tensor_list outs) |}.
Proof.
  unfold naming_cell, enumerate.
  rewrite name_tensors_run by (intros j _ []).
  rewrite name_tensors_run.
  - reflexivity.
  - intros j _. cbn [app]. rewrite entries_keys, in_map_iff.
    intros [i [Heq _]]. exact (input_is_not_output Heq).
Qed.

Lemma entries_for_keys (prefix : string) (ts : list (ndarray scalar)) :
  dict_keys (entries_for prefix ts) = names_for prefix ts.
Proof. apply entries_keys. Qed.

Lemma all_names_nodup (ins outs : list (ndarray scalar)) :
  NoDup (names_for "input-" ins ++ names_for "output-" outs).
Proof.
  apply NoDup_app; try apply names_for_nodup.
  unfold names_for. intros name Hin Hout.
  apply in_map_iff in Hin. destruct Hin as [i [<- _]].
  apply in_map_iff in Hout. destruct Hout as [j [Heq _]].
  exact (input_is_not_output (eq_sym Heq)).
Qed.

Lemma enumerate_from_nth {A} (xs : list A) :
  forall k i x, nth_error xs i = Some x -> In (k + i, x) (enumerate_from k xs).
Proof.
  induction xs as [| y xs IH]; intros k [| i] x H; cbn in *; try discriminate.
  - injection H as ->. left. f_equal. lia.
  - right. replace (k + S i) with (S k + i) by lia. apply IH. exact H.
Qed.

Lemma entries_for_nth (prefix : string) (ts : list (ndarray scalar)) (i : nat)
      (t : ndarray scalar) :
  nth_error ts i = Some t ->
  In (tensor_name prefix i, axes_of (tensor_name prefix i) (length (shape t)))
     (entries_for prefix ts).
Proof.
  intros H. unfold entries_for, enumerate.
  apply (in_map (entry_for prefix) _ (i, t)).
  apply (enumerate_from_nth ts 0 i H).
Qed.

Lemma axes_of_lookup (name : string) (rank d : nat) :
  dict_lookup Nat.eqb (axes_of name rank) d
  = if d <? rank then Some (name ++ "_dim" ++ str_of_nat d)%string else None.
Proof.
  destruct (Nat.ltb_spec d rank) as [Hlt | Hge].
  - apply (@dict_lookup_in _ _ Nat.eqb nat_eqb_eq).
    + rewrite axes_of_keys. apply seq_NoDup.
    + unfold axes_of.
      apply (in_map (fun dim_idx => (dim_idx, (name ++ "_dim" ++ str_of_nat dim_idx)%string))).
      apply in_seq. lia.
  - apply (@dict_lookup_absent _ _ Nat.eqb nat_eqb_eq).
    rewrite axes_of_keys, in_seq. lia.
Qed.

Lemma all_entries_lookup (ins outs : list (ndarray scalar)) (name : string)
      (inner : axes_dict) :
  In (name, inner) (entries_for "input-" ins ++ entries_for "output-" outs) ->
  dict_lookup String.eqb (entries_for "input-" ins ++ entries_for "output-" outs) name
  = Some inner.
Proof.
  apply (@dict_lookup_in _ _ String.eqb string_eqb_eq).
  rewrite dict_keys_app, !entries_for_keys. apply all_names_nodup.
Qed.

End NamingCell.

(** X11. The naming cell never raises: for any model inputs and outputs it
    names input [i] ["input-<i>"] and output [i] ["output-<i>"], in order,
    one name per tensor; the keys of [dynamic_axes] are these names, inputs
    first, and no two of them are equal, so no entry is overwritten. *)
Theorem naming_cell_names `{SC : Scalar} (ins : list (ndarray scalar))
        (outs : model_result) :
  exists nm,
    naming_cell ins outs = Ok nm /\
    input_names nm = map (tensor_name "input-") (seq 0 (length ins)) /\
    output_names nm
    = map (tensor_name "output-") (seq 0 (length (as_tensor_list outs))) /\
    dict_keys (dynamic_axes nm) = input_names nm ++ output_names nm /\
    NoDup (input_names nm ++ output_names nm).
Proof.
  eexists. split; [apply naming_cell_run |]. cbn [input_names output_names dynamic_axes].
  repeat split.
  - rewrite dict_keys_app, !entries_for_keys. reflexivity.
  - apply all_names_nodup.
Qed.

(** X12. In the [dynamic_axes] the cell builds, the entry of a tensor maps
    each of its axes [d] to ["<name>_dim<d>"] and holds nothing else: a
    lookup of an axis beyond the tensor's rank finds nothing. This holds for
    the inputs and for the outputs alike. *)
Theorem naming_cell_axes `{SC : Scalar} (ins : list (ndarray scalar))
        (outs : model_result) (nm : naming) (i : nat) (t : ndarray scalar) :
  naming_cell ins outs = Ok nm ->
  (nth_error ins i = Some t ->
   forall d, axis_label nm (tensor_name "input-" i) d
             = if d <? length (shape t)
               then Some (tensor_name "input-" i ++ "_dim" ++ str_of_nat d)%string
               else None) /\
  (nth_error (as_tensor_list outs) i = Some t ->
   forall d, axis_label nm (tensor_name "output-" i) d
             = if d <? length (shape t)
               then Some (tensor_name "output-" i ++ "_dim" ++ str_of_nat d)%string
               else None).
Proof.
  rewrite naming_cell_run. intros Hnm. injection Hnm as <-.
  unfold axis_label. cbn [dynamic_axes].
  split; intros Hnth d.
  - rewrite (@all_entries_lookup _ _ _ _ (axes_of (tensor_name "input-" i) (length (shape t)))).
    + apply axes_of_lookup.
    + apply in_or_app. left. apply entries_for_nth, Hnth.
  - rewrite (@all_entries_lookup _ _ _ _ (axes_of (tensor_name "output-" i) (length (shape t)))).
    + apply axes_of_lookup.
    + apply in_or_app. right. apply entries_for_nth, Hnth.
Qed.

Lemma naming_cell_axes_witness :
  let x := {| shape := [2; 3]; data := repeat 0%Z 6 |} in
  exists nm,
    @naming_cell ZScalar [x] (@OneTensor ZScalar x) = Ok nm /\
    (forall d, axis_label nm "input-0" d
               = if d <? 2 then Some ("input-0_dim" ++ str_of_nat d)%string else None) /\
    (forall d, axis_label nm "output-0" d
               = if d <? 2 then Some ("output-0_dim" ++ str_of_nat d)%string else None).
Proof.
  intros x. eexists. split; [reflexivity |].
  destruct (@naming_cell_axes ZScalar [x] (@OneTensor ZScalar x) _ 0 x eq_refl)
    as [Hin Hout].
  split; [exact (Hin eq_refl) | exact (Hout eq_refl)].
Defined.

Section ExportedName.
Context `{SC : Scalar} {RT : TrainingRuntime}.

(** Whatever the runtime answers, the export cell asks for one export, of
    the output ["output-0"]. *)
Lemma export_cell_exported_names (s : rt_state) :
  exported_names (trace_of export_cell s) = ["output-0"%string].
Proof.
  unfold trace_of. rewrite export_run.
  destruct (module_export_model_for_inferencing s _ _) as [s1 [[] | e]]; [| reflexivity].
  destruct (inference_session s1 _ _) as [sess | e]; reflexivity.
Qed.

End ExportedName.

(** X13. The output the export cell asks for is the one the naming cell
    named first: whenever the model returned at least one tensor, the names
    passed to the export are the first of [output_names], whatever the
    runtime answers; for a model that returns a single tensor they are all
    of [output_names]. *)
Theorem export_requests_first_output `{SC : Scalar} {RT : TrainingRuntime}
        (ins : list (ndarray scalar)) (outs : model_result) (nm : naming)
        (s : rt_state) :
  naming_cell ins outs = Ok nm ->
  as_tensor_list outs <> [] ->
  exported_names (trace_of export_cell s) = firstn 1 (output_names nm) /\
  (forall t, outs = OneTensor t ->
             exported_names (trace_of export_cell s) = output_names nm).
Proof.
  rewrite naming_cell_run. intros Hnm Hne. injection Hnm as <-.
  rewrite export_cell_exported_names. cbn [output_names]. split.
  - unfold names_for. destruct (as_tensor_list outs) as [| t ts]; [contradiction |].
    reflexivity.
  - intros t ->. reflexivity.
Qed.

Lemma export_requests_first_output_witness :
  let x := {| shape := [2; 3]; data := repeat 0%Z 6 |} in
  exists nm,
    @naming_cell ZScalar [x] (@OneTensor ZScalar x) = Ok nm /\
    exported_names (trace_of (@export_cell ZScalar Demo.demo_runtime) Demo.demo_state)
    = output_names nm.
Proof.
  intros x. eexists. split; [reflexivity |].
  refine (proj2 (@export_requests_first_output ZScalar Demo.demo_runtime
                   [x] (@OneTensor ZScalar x) _ Demo.demo_state eq_refl _) x eq_refl).
  discriminate.
Defined.
